(** * Outfit history and composite-key image cache of the virtual try-on App

    A shallow embedding of the state logic of the [App] component
    (state hooks, the derived values such as [displayImageUrl], and the
    event handlers) and of the pose arrows of [Canvas], together with the
    properties established about them.

    Conventions of the embedding:
    - A JavaScript [string | null | undefined] is an [option string];
      [None] stands for both [null] and [undefined], which the code never
      distinguishes (it only tests truthiness).
    - [generatedImages : Record<string, string>] is an association list in
      property-creation order.  Composite keys contain ['_'], so they are
      never array-index keys and [Object.keys] enumerates them in creation
      order.  [getProp] reads own properties; the properties inherited
      from [Object.prototype] are listed in [objectPrototypeNames], and a
      statement that depends on reading a key that could be one of them
      assumes [inheritedProperty key = false].  A composite key whose
      colour comes from the colour menu is never one of them.
    - An asynchronous handler is a [Step]: it either returns, throws a
      [TypeError], or suspends on one call of the image service with a
      resumption that runs the [try]/[catch]/[finally] tail on the state
      current at that time. *)

From Stdlib Require Import String Ascii Bool Arith ZArith Lia.
From stdpp Require Import base list strings.

Local Open Scope string_scope.

(** ** Types (types.ts) *)

Module WardrobeItem.
Record t : Type := mk { id : string; name : string; url : string }.
End WardrobeItem.

(** The browser's [File]; only its [name] is read by the App. *)
Module File.
Record t : Type := mk { name : string }.
End File.

(** A [Record<string, string>] in property-creation order. *)
Definition JsObject : Type := list (string * string).

Record OutfitLayer : Type := mkLayer {
  garment : option WardrobeItem.t;
  generatedImages : JsObject
}.

(** ** JavaScript primitives used by the App *)

(** A string is falsy exactly when it is empty. *)
Definition truthy (v : string) : bool := negb (v =? "").

(** Truthiness of a [string | null | undefined]. *)
Definition truthyOpt (v : option string) : bool :=
  match v with
  | Some x => truthy x
  | None => false
  end.

(** [obj[key]] as a read. *)
Fixpoint getProp (obj : JsObject) (key : string) : option string :=
  match obj with
  | [] => None
  | (k, v) :: rest => if k =? key then Some v else getProp rest key
  end.

(** [obj[key] = value]: an existing property keeps its position, a new one
    is created last. *)
Fixpoint setProp (obj : JsObject) (key value : string) : JsObject :=
  match obj with
  | [] => [(key, value)]
  | (k, v) :: rest =>
      if k =? key then (k, value) :: rest else (k, v) :: setProp rest key value
  end.

Definition objectKeys (obj : JsObject) : list string := map fst obj.
Definition objectValues (obj : JsObject) : list string := map snd obj.

(** [key.startsWith(searchString)] *)
Definition startsWith (key searchString : string) : bool :=
  String.prefix searchString key.

(** [keys.find(pred)]; [None] is [undefined]. *)
Definition arrayFind (pred : string -> bool) (keys : list string)
  : option string := List.find pred keys.

(** ** Constants of App.tsx *)

Definition POSE_INSTRUCTIONS : list string :=
  [ "Full frontal view, hands on hips";
    "Slightly turned, 3/4 view";
    "Side profile view";
    "Jumping in the air, mid-action shot";
    "Walking towards camera";
    "Leaning against a wall" ].

Definition EMOTION_INSTRUCTIONS : list string :=
  [ "Neutral"; "Happy"; "Sad"; "Serious" ].

Definition BACKGROUND_INSTRUCTIONS : list string :=
  [ "Neutral studio backdrop"; "City street at night";
    "Serene beach at sunset"; "Lush green forest"; "Modern art gallery" ].

Definition COLOR_INSTRUCTIONS : list string :=
  [ "Original"; "Vibrant Red"; "Deep Blue"; "Forest Green";
    "Classic Black"; "Pure White"; "Sunny Yellow"; "Hot Pink" ].

(** [ARR[0]] of a constant, non-empty array. *)
Definition first (arr : list string) : string := List.hd "" arr.

(** The template literal [`${pose}_${emotion}_${background}_${color}`]. *)
Definition compositeKey (pose emotion background color : string) : string :=
  pose +:+ "_" +:+ emotion +:+ "_" +:+ background +:+ "_" +:+ color.

Definition defaultKey : string :=
  compositeKey (first POSE_INSTRUCTIONS) (first EMOTION_INSTRUCTIONS)
    (first BACKGROUND_INSTRUCTIONS) (first COLOR_INSTRUCTIONS).

(** ** State of the App component *)

Record State : Type := mkState {
  modelImageUrl : option string;
  outfitHistory : list OutfitLayer;
  currentOutfitIndex : nat;
  isLoading : bool;
  loadingMessage : string;
  error : option string;
  currentPoseInstruction : string;
  currentEmotionInstruction : string;
  currentBackgroundInstruction : string;
  currentColorInstruction : string;
  isSheetCollapsed : bool;
  wardrobe : list WardrobeItem.t
}.

Definition setModelImageUrl (v : option string) (s : State) : State :=
  mkState v (outfitHistory s) (currentOutfitIndex s) (isLoading s)
    (loadingMessage s) (error s) (currentPoseInstruction s)
    (currentEmotionInstruction s) (currentBackgroundInstruction s)
    (currentColorInstruction s) (isSheetCollapsed s) (wardrobe s).

Definition setOutfitHistory (v : list OutfitLayer) (s : State) : State :=
  mkState (modelImageUrl s) v (currentOutfitIndex s) (isLoading s)
    (loadingMessage s) (error s) (currentPoseInstruction s)
    (currentEmotionInstruction s) (currentBackgroundInstruction s)
    (currentColorInstruction s) (isSheetCollapsed s) (wardrobe s).

Definition setCurrentOutfitIndex (v : nat) (s : State) : State :=
  mkState (modelImageUrl s) (outfitHistory s) v (isLoading s)
    (loadingMessage s) (error s) (currentPoseInstruction s)
    (currentEmotionInstruction s) (currentBackgroundInstruction s)
    (currentColorInstruction s) (isSheetCollapsed s) (wardrobe s).

Definition setIsLoading (v : bool) (s : State) : State :=
  mkState (modelImageUrl s) (outfitHistory s) (currentOutfitIndex s) v
    (loadingMessage s) (error s) (currentPoseInstruction s)
    (currentEmotionInstruction s) (currentBackgroundInstruction s)
    (currentColorInstruction s) (isSheetCollapsed s) (wardrobe s).

Definition setLoadingMessage (v : string) (s : State) : State :=
  mkState (modelImageUrl s) (outfitHistory s) (currentOutfitIndex s)
    (isLoading s) v (error s) (currentPoseInstruction s)
    (currentEmotionInstruction s) (currentBackgroundInstruction s)
    (currentColorInstruction s) (isSheetCollapsed s) (wardrobe s).

Definition setError (v : option string) (s : State) : State :=
  mkState (modelImageUrl s) (outfitHistory s) (currentOutfitIndex s)
    (isLoading s) (loadingMessage s) v (currentPoseInstruction s)
    (currentEmotionInstruction s) (currentBackgroundInstruction s)
    (currentColorInstruction s) (isSheetCollapsed s) (wardrobe s).

Definition setCurrentPoseInstruction (v : string) (s : State) : State :=
  mkState (modelImageUrl s) (outfitHistory s) (currentOutfitIndex s)
    (isLoading s) (loadingMessage s) (error s) v
    (currentEmotionInstruction s) (currentBackgroundInstruction s)
    (currentColorInstruction s) (isSheetCollapsed s) (wardrobe s).

Definition setCurrentEmotionInstruction (v : string) (s : State) : State :=
  mkState (modelImageUrl s) (outfitHistory s) (currentOutfitIndex s)
    (isLoading s) (loadingMessage s) (error s) (currentPoseInstruction s)
    v (currentBackgroundInstruction s)
    (currentColorInstruction s) (isSheetCollapsed s) (wardrobe s).

Definition setCurrentBackgroundInstruction (v : string) (s : State) : State :=
  mkState (modelImageUrl s) (outfitHistory s) (currentOutfitIndex s)
    (isLoading s) (loadingMessage s) (error s) (currentPoseInstruction s)
    (currentEmotionInstruction s) v
    (currentColorInstruction s) (isSheetCollapsed s) (wardrobe s).

Definition setCurrentColorInstruction (v : string) (s : State) : State :=
  mkState (modelImageUrl s) (outfitHistory s) (currentOutfitIndex s)
    (isLoading s) (loadingMessage s) (error s) (currentPoseInstruction s)
    (currentEmotionInstruction s) (currentBackgroundInstruction s)
    v (isSheetCollapsed s) (wardrobe s).

Definition setIsSheetCollapsed (v : bool) (s : State) : State :=
  mkState (modelImageUrl s) (outfitHistory s) (currentOutfitIndex s)
    (isLoading s) (loadingMessage s) (error s) (currentPoseInstruction s)
    (currentEmotionInstruction s) (currentBackgroundInstruction s)
    (currentColorInstruction s) v (wardrobe s).

Definition setWardrobe (v : list WardrobeItem.t) (s : State) : State :=
  mkState (modelImageUrl s) (outfitHistory s) (currentOutfitIndex s)
    (isLoading s) (loadingMessage s) (error s) (currentPoseInstruction s)
    (currentEmotionInstruction s) (currentBackgroundInstruction s)
    (currentColorInstruction s) (isSheetCollapsed s) v.

(** ** displayImageUrl (App.tsx, the [useMemo] at lines 81-108) *)

(** The three fallback prefixes, from the most to the least specific. *)
Definition poseEmotionBgPrefix (s : State) : string :=
  currentPoseInstruction s +:+ "_" +:+ currentEmotionInstruction s +:+ "_"
    +:+ currentBackgroundInstruction s +:+ "_".

Definition poseEmotionPrefix (s : State) : string :=
  currentPoseInstruction s +:+ "_" +:+ currentEmotionInstruction s +:+ "_".

Definition posePrefix (s : State) : string :=
  currentPoseInstruction s +:+ "_".

Definition primaryKey (s : State) : string :=
  compositeKey (currentPoseInstruction s) (currentEmotionInstruction s)
    (currentBackgroundInstruction s) (currentColorInstruction s).

(** [keys.find(key => key.startsWith(prefix))] followed by the truthiness
    test on the key that was found. *)
Definition fallbackKey (prefix : string) (images : JsObject) : option string :=
  match arrayFind (fun key => startsWith key prefix) (objectKeys images) with
  | Some key => if truthy key then Some key else None
  | None => None
  end.

Definition resolveImage (s : State) (images : JsObject) : option string :=
  if truthyOpt (getProp images (primaryKey s)) then getProp images (primaryKey s)
  else
    match fallbackKey (poseEmotionBgPrefix s) images with
    | Some key => getProp images key
    | None =>
        match fallbackKey (poseEmotionPrefix s) images with
        | Some key => getProp images key
        | None =>
            match fallbackKey (posePrefix s) images with
            | Some key => getProp images key
            | None => List.head (objectValues images)
            end
        end
    end.

Definition displayImageUrl (s : State) : option string :=
  if (length (outfitHistory s) =? 0)%nat then modelImageUrl s
  else
    match outfitHistory s !! currentOutfitIndex s with
    | None => modelImageUrl s
    | Some currentLayer => resolveImage s (generatedImages currentLayer)
    end.

(** ** The imported modules that the App only calls

    [./wardrobe] and [./lib/utils] are imported by App.tsx; the App uses
    [defaultWardrobe] as an opaque list and [getFriendlyErrorMessage] as an
    opaque function of the thrown value and a context string. *)

Class Imports : Type := {
  Thrown : Type;
  getFriendlyErrorMessage : Thrown -> string -> string;
  defaultWardrobe : list WardrobeItem.t
}.

(** The calls of [./services/geminiService], with their arguments. *)
Inductive ApiCall : Type :=
| generateVirtualTryOnImage (modelImage : string) (garmentFile : File.t)
| generatePoseVariation (baseImage instruction : string)
| generateEmotionVariation (baseImage instruction : string)
| generateBackgroundVariation (baseImage instruction : string)
| generateUploadedBackgroundVariation (baseImage : string) (file : File.t)
| generateColorVariation (baseImage instruction : string).

Notation "s |> f" := (f s) (at level 45, left associativity, only parsing).

Definition resetStateForNewGarment (s : State) : State :=
  s |> setCurrentPoseInstruction (first POSE_INSTRUCTIONS)
    |> setCurrentEmotionInstruction (first EMOTION_INSTRUCTIONS)
    |> setCurrentBackgroundInstruction (first BACKGROUND_INSTRUCTIONS)
    |> setCurrentColorInstruction (first COLOR_INSTRUCTIONS).

Definition handleModelFinalized (url : string) (s : State) : State :=
  let initialKey := defaultKey in
  s |> setModelImageUrl (Some url)
    |> setOutfitHistory [mkLayer None [(initialKey, url)]]
    |> setCurrentOutfitIndex 0
    |> resetStateForNewGarment.

Definition handleRemoveLastGarment (s : State) : State :=
  if (0 <? currentOutfitIndex s)%nat then
    s |> setCurrentOutfitIndex (currentOutfitIndex s - 1)
      |> resetStateForNewGarment
  else s.

(** The updater shared by the five variation handlers:
    [newHistory = [...prevHistory]; newHistory[index].generatedImages[imageKey]
    = newImageUrl].  The layer object is mutated in place and is shared by
    the old and the new array; the old array is the one React discards, so
    the update is its effect on the array.  Reading [generatedImages] of an
    absent layer throws ([None]). *)
Definition assignGeneratedImage (index : nat) (imageKey newImageUrl : string)
    (prevHistory : list OutfitLayer) : option (list OutfitLayer) :=
  match prevHistory !! index with
  | Some updatedLayer =>
      Some (<[index := mkLayer (garment updatedLayer)
                         (setProp (generatedImages updatedLayer) imageKey newImageUrl)]>
              prevHistory)
  | None => None
  end.

(** The [finally] block of every asynchronous handler. *)
Definition finallyBlock (s : State) : State :=
  s |> setIsLoading false |> setLoadingMessage "".

(** [layer.generatedImages[key]] used as a condition. *)
Definition cached (layer : OutfitLayer) (key : string) : bool :=
  truthyOpt (getProp (generatedImages layer) key).

Section Handlers.
Context `{Imports}.

Inductive ApiResult : Type :=
| Resolved (newImageUrl : string)
| Rejected (err : Thrown).

(** What one invocation of a handler does up to its first [await]. *)
Inductive Step : Type :=
| Return (s : State)
| TypeError
| Await (s : State) (call : ApiCall)
    (resume : ApiResult -> State -> option State).

Definition initialState : State :=
  mkState None [] 0 false "" None
    (first POSE_INSTRUCTIONS) (first EMOTION_INSTRUCTIONS)
    (first BACKGROUND_INSTRUCTIONS) (first COLOR_INSTRUCTIONS)
    false defaultWardrobe.

Definition handleStartOver (s : State) : State :=
  s |> setModelImageUrl None
    |> setOutfitHistory []
    |> setCurrentOutfitIndex 0
    |> setIsLoading false
    |> setLoadingMessage ""
    |> setError None
    |> resetStateForNewGarment
    |> setIsSheetCollapsed false
    |> setWardrobe defaultWardrobe.

(** [nextLayer && nextLayer.garment?.id === garmentInfo.id] *)
Definition isNextLayerOf (garmentInfo : WardrobeItem.t)
    (nextLayer : option OutfitLayer) : bool :=
  match nextLayer with
  | Some layer =>
      match garment layer with
      | Some g => WardrobeItem.id g =? WardrobeItem.id garmentInfo
      | None => false
      end
  | None => false
  end.

Definition addToWardrobe (garmentInfo : WardrobeItem.t)
    (prev : list WardrobeItem.t) : list WardrobeItem.t :=
  match List.find (fun item => WardrobeItem.id item =? WardrobeItem.id garmentInfo) prev with
  | Some _ => prev
  | None => prev ++ [garmentInfo]
  end.

Definition handleGarmentSelect (s : State) (garmentFile : File.t)
    (garmentInfo : WardrobeItem.t) : Step :=
  match displayImageUrl s with
  | Some displayImage =>
      if negb (truthy displayImage) || isLoading s then Return s
      else if isNextLayerOf garmentInfo (outfitHistory s !! (currentOutfitIndex s + 1))
      then Return (s |> setCurrentOutfitIndex (currentOutfitIndex s + 1)
                     |> resetStateForNewGarment)
      else
        Await
          (s |> setError None
             |> setIsLoading true
             |> setLoadingMessage ("Adding " +:+ WardrobeItem.name garmentInfo +:+ "...")
             |> resetStateForNewGarment)
          (generateVirtualTryOnImage displayImage garmentFile)
          (fun result st =>
             Some (finallyBlock
               match result with
               | Resolved newImageUrl =>
                   let imageKey := defaultKey in
                   let newLayer := mkLayer (Some garmentInfo) [(imageKey, newImageUrl)] in
                   st |> setOutfitHistory
                           (take (currentOutfitIndex s + 1) (outfitHistory st) ++ [newLayer])
                      |> setCurrentOutfitIndex (currentOutfitIndex st + 1)
                      |> setWardrobe (addToWardrobe garmentInfo (wardrobe st))
               | Rejected err =>
                   st |> setError (Some (getFriendlyErrorMessage err "Failed to apply garment"))
               end))
  | None => Return s
  end.

(** The [try]/[catch]/[finally] tail shared in shape by the five variation
    handlers; each handler below instantiates it with its own captured
    values, as the source repeats it. *)
Definition variationTail (index : nat) (imageKey : string)
    (restore : State -> State) (context : string)
    (result : ApiResult) (st : State) : option State :=
  match result with
  | Resolved newImageUrl =>
      match assignGeneratedImage index imageKey newImageUrl (outfitHistory st) with
      | Some newHistory => Some (finallyBlock (st |> setOutfitHistory newHistory))
      | None => None
      end
  | Rejected err =>
      Some (finallyBlock
              (st |> setError (Some (getFriendlyErrorMessage err context))
                  |> restore))
  end.

Definition handlePoseSelect (s : State) (newInstruction : string) : Step :=
  if isLoading s || (length (outfitHistory s) =? 0)%nat
     || (newInstruction =? currentPoseInstruction s)
  then Return s
  else
    let imageKey :=
      compositeKey newInstruction (currentEmotionInstruction s)
        (currentBackgroundInstruction s) (currentColorInstruction s) in
    match outfitHistory s !! currentOutfitIndex s with
    | None => TypeError
    | Some currentLayer =>
        if cached currentLayer imageKey
        then Return (s |> setCurrentPoseInstruction newInstruction)
        else
          match displayImageUrl s with
          | Some baseImageForPoseChange =>
              if truthy baseImageForPoseChange then
                let prevPoseInstruction := currentPoseInstruction s in
                Await
                  (s |> setError None
                     |> setIsLoading true
                     |> setLoadingMessage "Changing pose..."
                     |> setCurrentPoseInstruction newInstruction)
                  (generatePoseVariation baseImageForPoseChange newInstruction)
                  (variationTail (currentOutfitIndex s) imageKey
                     (setCurrentPoseInstruction prevPoseInstruction)
                     "Failed to change pose")
              else Return s
          | None => Return s
          end
    end.

Definition handleEmotionSelect (s : State) (newInstruction : string) : Step :=
  if isLoading s || (length (outfitHistory s) =? 0)%nat
     || (newInstruction =? currentEmotionInstruction s)
  then Return s
  else
    let imageKey :=
      compositeKey (currentPoseInstruction s) newInstruction
        (currentBackgroundInstruction s) (currentColorInstruction s) in
    match outfitHistory s !! currentOutfitIndex s with
    | None => TypeError
    | Some currentLayer =>
        if cached currentLayer imageKey
        then Return (s |> setCurrentEmotionInstruction newInstruction)
        else
          match displayImageUrl s with
          | Some baseImageForEmotionChange =>
              if truthy baseImageForEmotionChange then
                let prevEmotionInstruction := currentEmotionInstruction s in
                Await
                  (s |> setError None
                     |> setIsLoading true
                     |> setLoadingMessage ("Changing emotion to " +:+ newInstruction +:+ "...")
                     |> setCurrentEmotionInstruction newInstruction)
                  (generateEmotionVariation baseImageForEmotionChange newInstruction)
                  (variationTail (currentOutfitIndex s) imageKey
                     (setCurrentEmotionInstruction prevEmotionInstruction)
                     "Failed to change emotion")
              else Return s
          | None => Return s
          end
    end.

Definition handleBackgroundChange (s : State) (newInstruction : string) : Step :=
  if isLoading s || (length (outfitHistory s) =? 0)%nat
     || (newInstruction =? currentBackgroundInstruction s)
  then Return s
  else
    let imageKey :=
      compositeKey (currentPoseInstruction s) (currentEmotionInstruction s)
        newInstruction (currentColorInstruction s) in
    match outfitHistory s !! currentOutfitIndex s with
    | None => TypeError
    | Some currentLayer =>
        if cached currentLayer imageKey
        then Return (s |> setCurrentBackgroundInstruction newInstruction)
        else
          match displayImageUrl s with
          | Some baseImageForBackgroundChange =>
              if truthy baseImageForBackgroundChange then
                let prevBackgroundInstruction := currentBackgroundInstruction s in
                Await
                  (s |> setError None
                     |> setIsLoading true
                     |> setLoadingMessage "Changing background..."
                     |> setCurrentBackgroundInstruction newInstruction)
                  (generateBackgroundVariation baseImageForBackgroundChange newInstruction)
                  (variationTail (currentOutfitIndex s) imageKey
                     (setCurrentBackgroundInstruction prevBackgroundInstruction)
                     "Failed to change background")
              else Return s
          | None => Return s
          end
    end.

Definition handleBackgroundUpload (s : State) (file : File.t) : Step :=
  if isLoading s || (length (outfitHistory s) =? 0)%nat
  then Return s
  else
    let newInstruction := "Uploaded: " +:+ File.name file in
    let imageKey :=
      compositeKey (currentPoseInstruction s) (currentEmotionInstruction s)
        newInstruction (currentColorInstruction s) in
    match outfitHistory s !! currentOutfitIndex s with
    | None => TypeError
    | Some currentLayer =>
        if cached currentLayer imageKey
        then Return (s |> setCurrentBackgroundInstruction newInstruction)
        else
          match displayImageUrl s with
          | Some baseImageForBackgroundChange =>
              if truthy baseImageForBackgroundChange then
                let prevBackgroundInstruction := currentBackgroundInstruction s in
                Await
                  (s |> setError None
                     |> setIsLoading true
                     |> setLoadingMessage "Applying custom background..."
                     |> setCurrentBackgroundInstruction newInstruction)
                  (generateUploadedBackgroundVariation baseImageForBackgroundChange file)
                  (variationTail (currentOutfitIndex s) imageKey
                     (setCurrentBackgroundInstruction prevBackgroundInstruction)
                     "Failed to apply custom background")
              else Return s
          | None => Return s
          end
    end.

Definition originalColorKey (s : State) : string :=
  compositeKey (currentPoseInstruction s) (currentEmotionInstruction s)
    (currentBackgroundInstruction s) (first COLOR_INSTRUCTIONS).

Definition missingOriginalMessage : string :=
  "The original image for this outfit is missing. Cannot change color.".

Definition handleColorChange (s : State) (newInstruction : string) : Step :=
  if isLoading s || (length (outfitHistory s) =? 0)%nat
     || (newInstruction =? currentColorInstruction s)
     || (currentOutfitIndex s =? 0)%nat
  then Return s
  else
    let imageKey :=
      compositeKey (currentPoseInstruction s) (currentEmotionInstruction s)
        (currentBackgroundInstruction s) newInstruction in
    match outfitHistory s !! currentOutfitIndex s with
    | None => TypeError
    | Some currentLayer =>
        if cached currentLayer imageKey
        then Return (s |> setCurrentColorInstruction newInstruction)
        else
          match getProp (generatedImages currentLayer) (originalColorKey s) with
          | Some baseImageForColorChange =>
              if truthy baseImageForColorChange then
                let prevColorInstruction := currentColorInstruction s in
                Await
                  (s |> setError None
                     |> setIsLoading true
                     |> setLoadingMessage ("Changing color to " +:+ newInstruction +:+ "...")
                     |> setCurrentColorInstruction newInstruction)
                  (generateColorVariation baseImageForColorChange newInstruction)
                  (variationTail (currentOutfitIndex s) imageKey
                     (setCurrentColorInstruction prevColorInstruction)
                     "Failed to change color")
              else Return (s |> setError (Some missingOriginalMessage))
          | None => Return (s |> setError (Some missingOriginalMessage))
          end
    end.

(** ** Running a handler to completion *)

Inductive Outcome : Type :=
| Finished (s : State) (calls : list ApiCall)
| Crashed.

(** The handler runs alone: the service answers [result] to the call, if
    one is made, and the resumption runs on the state the handler left. *)
Definition run (result : ApiResult) (st : Step) : Outcome :=
  match st with
  | Return s => Finished s []
  | TypeError => Crashed
  | Await s call resume =>
      match resume result s with
      | Some s' => Finished s' [call]
      | None => Crashed
      end
  end.

(** The service calls a handler makes. *)
Definition apiCalls (st : Step) : list ApiCall :=
  match st with
  | Await _ call _ => [call]
  | _ => []
  end.

(** A request to one of the five variation handlers. *)
Inductive Variation : Type :=
| PoseSelect (newInstruction : string)
| EmotionSelect (newInstruction : string)
| BackgroundChange (newInstruction : string)
| BackgroundUpload (file : File.t)
| ColorChange (newInstruction : string).

Definition adjust (s : State) (v : Variation) : Step :=
  match v with
  | PoseSelect newInstruction => handlePoseSelect s newInstruction
  | EmotionSelect newInstruction => handleEmotionSelect s newInstruction
  | BackgroundChange newInstruction => handleBackgroundChange s newInstruction
  | BackgroundUpload file => handleBackgroundUpload s file
  | ColorChange newInstruction => handleColorChange s newInstruction
  end.

(** The user-level operations of the App. *)
Inductive Op : Type :=
| OpModelFinalized (url : string)
| OpStartOver
| OpGarmentSelect (garmentFile : File.t) (garmentInfo : WardrobeItem.t)
| OpRemoveLastGarment
| OpAdjust (v : Variation).

Definition dispatch (s : State) (op : Op) : Step :=
  match op with
  | OpModelFinalized url => Return (handleModelFinalized url s)
  | OpStartOver => Return (handleStartOver s)
  | OpGarmentSelect garmentFile garmentInfo => handleGarmentSelect s garmentFile garmentInfo
  | OpRemoveLastGarment => Return (handleRemoveLastGarment s)
  | OpAdjust v => adjust s v
  end.

(** States reachable from the initial state when every operation runs to
    completion, successfully or with an error, before the next begins:
    each resumption runs on the state its handler suspended in.  Runs in
    which an operation starts while another is pending are described by
    [interleaved] below. *)
Inductive reachable : State -> Prop :=
| reachable_init : reachable initialState
| reachable_step s op result s' calls :
    reachable s ->
    run result (dispatch s op) = Finished s' calls ->
    reachable s'.

End Handlers.

(** ** Vocabulary for the variation handlers *)

Inductive Axis : Type := Pose | Emotion | Background | Color.

Definition current (a : Axis) (s : State) : string :=
  match a with
  | Pose => currentPoseInstruction s
  | Emotion => currentEmotionInstruction s
  | Background => currentBackgroundInstruction s
  | Color => currentColorInstruction s
  end.

Definition axisOf (v : Variation) : Axis :=
  match v with
  | PoseSelect _ => Pose
  | EmotionSelect _ => Emotion
  | BackgroundChange _ | BackgroundUpload _ => Background
  | ColorChange _ => Color
  end.

(** The instruction a request asks for. *)
Definition requested (v : Variation) : string :=
  match v with
  | PoseSelect i | EmotionSelect i | BackgroundChange i | ColorChange i => i
  | BackgroundUpload file => "Uploaded: " +:+ File.name file
  end.

(** The composite key of the request: the requested instruction on its
    axis, the current instructions on the other three. *)
Definition requestedKey (s : State) (v : Variation) : string :=
  let pick a := match axisOf v, a with
                | Pose, Pose | Emotion, Emotion
                | Background, Background | Color, Color => requested v
                | _, _ => current a s
                end in
  compositeKey (pick Pose) (pick Emotion) (pick Background) (pick Color).

(** The context string each handler passes to [getFriendlyErrorMessage]. *)
Definition failureContext (v : Variation) : string :=
  match v with
  | PoseSelect _ => "Failed to change pose"
  | EmotionSelect _ => "Failed to change emotion"
  | BackgroundChange _ => "Failed to change background"
  | BackgroundUpload _ => "Failed to apply custom background"
  | ColorChange _ => "Failed to change color"
  end.

(** ** Vocabulary for the fallback search *)

(** [key] is the first key, in enumeration order, that starts with [prefix]. *)
Definition firstKeyWith (prefix : string) (images : JsObject) (key : string) : Prop :=
  exists before after : list string,
    objectKeys images = (before ++ key :: after)%list
    /\ startsWith key prefix = true
    /\ Forall (fun k => startsWith k prefix = false) before.

(** No key starts with [prefix]. *)
Definition noKeyWith (prefix : string) (images : JsObject) : Prop :=
  Forall (fun k => startsWith k prefix = false) (objectKeys images).

(** [true] when the string contains no ['_']. *)
Fixpoint noUnderscore (x : string) : bool :=
  match x with
  | EmptyString => true
  | String a rest => negb (Ascii.eqb a "_") && noUnderscore rest
  end.

(** ** Vocabulary for delegation to the image service *)

(** The image a variation handler passes to the service: the displayed
    image, or for a colour change the layer's entry under the Original
    colour. *)
Definition baseImage (s : State) (layer : OutfitLayer) (v : Variation)
  : option string :=
  match v with
  | ColorChange _ => getProp (generatedImages layer) (originalColorKey s)
  | _ => displayImageUrl s
  end.

(** The service function belonging to each handler. *)
Definition serviceCall (v : Variation) (base : string) : ApiCall :=
  match v with
  | PoseSelect i => generatePoseVariation base i
  | EmotionSelect i => generateEmotionVariation base i
  | BackgroundChange i => generateBackgroundVariation base i
  | BackgroundUpload file => generateUploadedBackgroundVariation base file
  | ColorChange i => generateColorVariation base i
  end.

(** ** The history invariant *)

(** Every layer caches at least one image; the layer at index 0 is the base
    model layer and every later layer carries a garment. *)
Definition layersWellFormed (history : list OutfitLayer) : Prop :=
  forall (i : nat) (layer : OutfitLayer),
    history !! i = Some layer ->
    generatedImages layer <> []
    /\ (i = 0 -> garment layer = None)
    /\ (0 < i -> garment layer <> None).

Definition historyInvariant (s : State) : Prop :=
  (outfitHistory s = [] -> currentOutfitIndex s = 0)
  /\ (outfitHistory s <> [] -> currentOutfitIndex s < length (outfitHistory s))
  /\ layersWellFormed (outfitHistory s).

(** The invariant strengthened to be inductive: without a history there is
    no model image either, so nothing can be displayed or dressed. *)
Definition inductiveInvariant (s : State) : Prop :=
  historyInvariant s
  /\ (outfitHistory s = [] -> modelImageUrl s = None).

(** ** Concrete states used by the examples *)

(** An instance of the imports on which the handlers can be evaluated. *)
#[local] Instance exampleImports : Imports := {|
  Thrown := string;
  getFriendlyErrorMessage := fun err context => context +:+ ": " +:+ err;
  defaultWardrobe := []
|}.

(** The state an operation leaves when it runs to completion. *)
Definition after (s : State) (op : Op) (result : ApiResult) : State :=
  match run result (dispatch s op) with
  | Finished s' _ => s'
  | Crashed => s
  end.

(** The state while a handler is waiting for the service. *)
Definition suspended (s : State) (op : Op) : State :=
  match dispatch s op with
  | Await s' _ _ => s'
  | _ => s
  end.

Definition shirt : WardrobeItem.t := WardrobeItem.mk "shirt-1" "Shirt" "shirt.png".
Definition shirtFile : File.t := File.mk "shirt.png".

(** A model has been finalized. *)
Definition exModel : State :=
  after initialState (OpModelFinalized "model.png") (Resolved "").

(** ... and a garment has been put on. *)
Definition exDressed : State :=
  after exModel (OpGarmentSelect shirtFile shirt) (Resolved "shirt-on.png").

(** On the model, the custom pose [Side_view] has been generated. *)
Definition exCustomPose : State :=
  after exModel (OpAdjust (PoseSelect "Side_view")) (Resolved "side_view.png").

(** ... and the custom pose [Side] has been requested and is being
    generated. *)
Definition exPendingPose : State :=
  suspended exCustomPose (OpAdjust (PoseSelect "Side")).

(** On the garment layer, the service answered a colour request with an
    empty URL. *)
Definition exEmptyRed : State :=
  after exDressed (OpAdjust (ColorChange "Vibrant Red")) (Resolved "").

(** ... and the user went back to the Original colour. *)
Definition exRedRetry : State :=
  after exEmptyRed (OpAdjust (ColorChange "Original")) (Resolved "").

(** On the garment layer, a pose is being generated. *)
Definition exDressedLoading : State :=
  suspended exDressed (OpAdjust (PoseSelect "Side profile view")).

(** ** Derived values of the App (the [useMemo]s beside displayImageUrl) *)

(** [outfitHistory.slice(0, currentOutfitIndex + 1)] *)
Definition activeOutfitLayers (s : State) : list OutfitLayer :=
  take (currentOutfitIndex s + 1) (outfitHistory s).

(** [activeOutfitLayers.map(layer => layer.garment?.id).filter(Boolean)]:
    [layer.garment?.id] is [undefined] on the base layer, and [Boolean]
    drops [undefined] and the empty string. *)
Definition activeGarmentIds (s : State) : list string :=
  omap (fun garmentId => garmentId)
    (List.filter truthyOpt
       (map (fun layer => option_map WardrobeItem.id (garment layer))
          (activeOutfitLayers s))).

(** [key.split('_')[0]]: the part of the key before its first ['_'], the
    whole key when it has none. *)
Fixpoint splitFirst (key : string) : string :=
  match key with
  | EmptyString => EmptyString
  | String a rest =>
      if Ascii.eqb a "_" then EmptyString else String a (splitFirst rest)
  end.

(** [[...new Set(values)]]: the distinct values in order of first
    occurrence. *)
Fixpoint uniqueInOrder (values : list string) : list string :=
  match values with
  | [] => []
  | v :: rest => v :: List.filter (fun w => negb (w =? v)) (uniqueInOrder rest)
  end.

Definition availablePoseKeys (s : State) : list string :=
  if (length (outfitHistory s) =? 0)%nat then []
  else
    match outfitHistory s !! currentOutfitIndex s with
    | None => []
    | Some currentLayer =>
        let generatedPoses := map splitFirst (objectKeys (generatedImages currentLayer)) in
        uniqueInOrder generatedPoses
    end.

(** ** The pose arrows of Canvas.tsx *)

(** [array.indexOf(value)], [-1] when absent. *)
Fixpoint indexOf (array : list string) (value : string) : Z :=
  match array with
  | [] => (-1)%Z
  | x :: rest =>
      if x =? value then 0%Z
      else let i := indexOf rest value in
           if (i =? -1)%Z then (-1)%Z else (i + 1)%Z
  end.

(** [array[index]] for an integral index; [None] is [undefined]. *)
Definition arrayAt (array : list string) (index : Z) : option string :=
  if (index <? 0)%Z then None else array !! Z.to_nat index.

(** What a click on an arrow does: nothing, or one call of [onSelectPose]
    with the array element read (possibly [undefined]). *)
Inductive PoseClick : Type :=
| NoCall
| SelectPose (instruction : option string).

Definition handlePreviousPose (isLoading : bool) (availablePoseKeys : list string)
    (currentPoseInstruction : string) : PoseClick :=
  if isLoading || (Z.of_nat (length availablePoseKeys) <=? 1)%Z then NoCall
  else
    let currentIndex := indexOf availablePoseKeys currentPoseInstruction in
    if (currentIndex =? -1)%Z then NoCall
    else
      let prevIndex :=
        Z.rem (currentIndex - 1 + Z.of_nat (length availablePoseKeys))
              (Z.of_nat (length availablePoseKeys)) in
      SelectPose (arrayAt availablePoseKeys prevIndex).

Definition handleNextPose (isLoading : bool) (availablePoseKeys : list string)
    (currentPoseInstruction : string) : PoseClick :=
  if isLoading || (Z.of_nat (length availablePoseKeys) <=? 1)%Z then NoCall
  else
    let currentIndex := indexOf availablePoseKeys currentPoseInstruction in
    if (currentIndex =? -1)%Z then NoCall
    else
      let nextIndex :=
        Z.rem (currentIndex + 1) (Z.of_nat (length availablePoseKeys)) in
      SelectPose (arrayAt availablePoseKeys nextIndex).

(** ** Vocabulary for the quiescent states *)

(** The state with the instruction of one axis replaced. *)
Definition setCurrent (a : Axis) (instruction : string) (s : State) : State :=
  match a with
  | Pose => setCurrentPoseInstruction instruction s
  | Emotion => setCurrentEmotionInstruction instruction s
  | Background => setCurrentBackgroundInstruction instruction s
  | Color => setCurrentColorInstruction instruction s
  end.

(** The ids of the wardrobe items, in order. *)
Definition wardrobeIds (items : list WardrobeItem.t) : list string :=
  map WardrobeItem.id items.

(** Every layer still has the entry it was created with, and the current
    layer has an entry for exactly the current four instructions. *)
Definition exactKeyInvariant (s : State) : Prop :=
  (forall i layer, outfitHistory s !! i = Some layer ->
     is_Some (getProp (generatedImages layer) defaultKey))
  /\ (forall layer, outfitHistory s !! currentOutfitIndex s = Some layer ->
       is_Some (getProp (generatedImages layer) (primaryKey s))).

(** ** Properties inherited from [Object.prototype]

    [generatedImages] is a plain object, so [generatedImages[key]] also
    finds the properties every object inherits.  [getProp] reads the
    object's own properties; it is the read of the source exactly at the
    keys that are not among these names. *)

Definition objectPrototypeNames : list string :=
  [ "constructor"; "hasOwnProperty"; "isPrototypeOf"; "propertyIsEnumerable";
    "toLocaleString"; "toString"; "valueOf";
    "__proto__"; "__defineGetter__"; "__defineSetter__";
    "__lookupGetter__"; "__lookupSetter__" ].

Definition inheritedProperty (key : string) : bool :=
  existsb (String.eqb key) objectPrototypeNames.

(** The last character of a string. *)
Fixpoint lastAscii (x : string) : option ascii :=
  match x with
  | EmptyString => None
  | String a EmptyString => Some a
  | String _ rest => lastAscii rest
  end.

(** A colour offered by the colour menu of Canvas.tsx, which lists
    [colorInstructions], that is [COLOR_INSTRUCTIONS]. *)
Definition colorFromMenu (color : string) : bool :=
  existsb (String.eqb color) COLOR_INSTRUCTIONS.

(** The key under which a variation handler looks for its base image: the
    composite key of the current instructions through [displayImageUrl],
    or for a colour change the Original-colour key. *)
Definition baseKey (s : State) (v : Variation) : string :=
  match v with
  | ColorChange _ => originalColorKey s
  | _ => primaryKey s
  end.

(** ** Operations that overlap

    [handleStartOver], [handleModelFinalized] and [handleRemoveLastGarment]
    do not test [isLoading], so they can run while a request is pending;
    the pending handler then resumes on the state they left. *)

(** Operations whose colour requests come from the colour menu. *)
Definition colorsFromMenu (op : Op) : bool :=
  match op with
  | OpAdjust (ColorChange newInstruction) => colorFromMenu newInstruction
  | _ => true
  end.

(** The handlers that do not test [isLoading]. *)
Definition unguarded (op : Op) : bool :=
  match op with
  | OpModelFinalized _ | OpStartOver | OpRemoveLastGarment => true
  | OpGarmentSelect _ _ | OpAdjust _ => false
  end.

(** No restriction on the operations. *)
Definition everyOp (op : Op) : bool := true.

Section Overlap.
Context `{Imports}.

(** [interleaved s pending]: the App is in state [s] with the resumptions
    [pending] still waiting for the service.  An operation may start in
    any state; a pending resumption may complete at any later time, with
    any answer of the service, on the state current then.  With
    [pending = []] every operation that was started has completed. *)
Inductive interleaved : State -> list (ApiResult -> State -> option State) -> Prop :=
| interleaved_init : interleaved initialState []
| interleaved_return s pending op s' :
    interleaved s pending ->
    dispatch s op = Return s' ->
    interleaved s' pending
| interleaved_await s pending op s' call resume :
    interleaved s pending ->
    dispatch s op = Await s' call resume ->
    interleaved s' (resume :: pending)
| interleaved_complete s before resume after result s' :
    interleaved s (before ++ resume :: after) ->
    resume result s = Some s' ->
    interleaved s' (before ++ after).

(** [reachable] restricted to the operations in [allowed]. *)
Inductive reachableVia (allowed : Op -> bool) : State -> Prop :=
| reachableVia_init : reachableVia allowed initialState
| reachableVia_step s op result s' calls :
    reachableVia allowed s ->
    allowed op = true ->
    run result (dispatch s op) = Finished s' calls ->
    reachableVia allowed s'.

(** [orderly allowed s pending]: [interleaved] restricted to the operations
    in [allowed], where moreover the handlers that do not test [isLoading]
    are invoked only when no request is pending.  The other handlers may
    be invoked at any time, and a pending request may complete at any
    time. *)
Inductive orderly (allowed : Op -> bool)
  : State -> list (ApiResult -> State -> option State) -> Prop :=
| orderly_init : orderly allowed initialState []
| orderly_return s pending op s' :
    orderly allowed s pending ->
    allowed op = true ->
    (unguarded op = true -> pending = []) ->
    dispatch s op = Return s' ->
    orderly allowed s' pending
| orderly_await s pending op s' call resume :
    orderly allowed s pending ->
    allowed op = true ->
    (unguarded op = true -> pending = []) ->
    dispatch s op = Await s' call resume ->
    orderly allowed s' (resume :: pending)
| orderly_complete s before resume after result s' :
    orderly allowed s (before ++ resume :: after) ->
    resume result s = Some s' ->
    orderly allowed s' (before ++ after).

End Overlap.


(** * Properties *)

(** ** Strings and objects *)

Lemma truthy_true_iff (v : string) : truthy v = true <-> v <> "".
Proof.
  unfold truthy. rewrite negb_true_iff. split.
  - intros E ->. discriminate.
  - intros N. apply String.eqb_neq. exact N.
Qed.

Lemma truthy_false_iff (v : string) : truthy v = false <-> v = "".
Proof.
  unfold truthy. rewrite negb_false_iff. apply String.eqb_eq.
Qed.

Lemma startsWith_app (p rest : string) : startsWith (p +:+ rest) p = true.
Proof.
  unfold startsWith. induction p as [|a p IH]; simpl.
  - destruct rest; reflexivity.
  - destruct (ascii_dec a a) as [_|N]; [exact IH | congruence].
Qed.

Lemma getProp_setProp_eq (obj : JsObject) (key value : string) :
  getProp (setProp obj key value) key = Some value.
Proof.
  induction obj as [|[k v] obj IH]; simpl.
  - now rewrite String.eqb_refl.
  - destruct (k =? key) eqn:E; simpl; rewrite E; [reflexivity | exact IH].
Qed.

Lemma getProp_setProp_ne (obj : JsObject) (key key' value : string) :
  key' <> key -> getProp (setProp obj key value) key' = getProp obj key'.
Proof.
  intros N. induction obj as [|[k v] obj IH]; simpl.
  - apply String.eqb_neq in N. rewrite String.eqb_sym in N. now rewrite N.
  - destruct (k =? key) eqn:E; simpl.
    + apply String.eqb_eq in E. subst k.
      apply String.eqb_neq in N. rewrite String.eqb_sym in N. now rewrite N.
    + now rewrite IH.
Qed.

Lemma setProp_absent (obj : JsObject) (key value : string) :
  getProp obj key = None -> setProp obj key value = (obj ++ [(key, value)])%list.
Proof.
  induction obj as [|[k v] obj IH]; simpl; [reflexivity|].
  destruct (k =? key); [discriminate|]. intros E. now rewrite IH.
Qed.

Lemma setProp_nonempty (obj : JsObject) (key value : string) :
  setProp obj key value <> [].
Proof.
  destruct obj as [|[k v] obj]; simpl; [discriminate|].
  destruct (k =? key); discriminate.
Qed.

(** ** C9: finalizing the model *)

(** C9. After [handleModelFinalized url] the history is the single base
    layer (garment null) caching [url] under the default composite key,
    the index is 0, the four instructions have their default values, and
    the displayed image is [url]. *)
Theorem handleModelFinalized_spec (url : string) (s : State) :
  let s' := handleModelFinalized url s in
  outfitHistory s' =
    [mkLayer None
       [(compositeKey (first POSE_INSTRUCTIONS) (first EMOTION_INSTRUCTIONS)
           (first BACKGROUND_INSTRUCTIONS) (first COLOR_INSTRUCTIONS), url)]]
  /\ currentOutfitIndex s' = 0
  /\ currentPoseInstruction s' = first POSE_INSTRUCTIONS
  /\ currentEmotionInstruction s' = first EMOTION_INSTRUCTIONS
  /\ currentBackgroundInstruction s' = first BACKGROUND_INSTRUCTIONS
  /\ currentColorInstruction s' = first COLOR_INSTRUCTIONS
  /\ displayImageUrl s' = Some url.
Proof.
  repeat split.
  destruct url as [|a url]; reflexivity.
Qed.

(** Case analysis on the guards of a handler appearing in hypothesis [H],
    innermost scrutinee first. *)
Ltac split_guards H :=
  repeat match type of H with
         | context [match ?x with _ => _ end] =>
             lazymatch x with
             | context [match _ with _ => _ end] => fail
             | _ => destruct x eqn:?
             end
         end.

Ltac unfold_handlers H :=
  unfold adjust, dispatch, handleGarmentSelect, handlePoseSelect,
    handleEmotionSelect, handleBackgroundChange, handleBackgroundUpload,
    handleColorChange in H.

Ltac unfold_tail H :=
  unfold run, variationTail, assignGeneratedImage in H.

Section GarmentSelect.
Context `{Imports}.

(** C3. When [handleGarmentSelect] reaches the try-on call and the call
    succeeds, the history becomes its first [currentOutfitIndex + 1]
    layers followed by one new layer for the selected garment whose map
    has the single entry default key -> new image; the index grows by
    one and the four instructions are the defaults. *)
Theorem handleGarmentSelect_success
    (s s' : State) (garmentFile : File.t) (garmentInfo : WardrobeItem.t)
    (newImageUrl : string) (call : ApiCall) :
  run (Resolved newImageUrl) (handleGarmentSelect s garmentFile garmentInfo)
    = Finished s' [call] ->
  outfitHistory s' =
    (take (currentOutfitIndex s + 1) (outfitHistory s)
       ++ [mkLayer (Some garmentInfo)
             [(compositeKey (first POSE_INSTRUCTIONS) (first EMOTION_INSTRUCTIONS)
                 (first BACKGROUND_INSTRUCTIONS) (first COLOR_INSTRUCTIONS),
               newImageUrl)]])%list
  /\ currentOutfitIndex s' = currentOutfitIndex s + 1
  /\ currentPoseInstruction s' = first POSE_INSTRUCTIONS
  /\ currentEmotionInstruction s' = first EMOTION_INSTRUCTIONS
  /\ currentBackgroundInstruction s' = first BACKGROUND_INSTRUCTIONS
  /\ currentColorInstruction s' = first COLOR_INSTRUCTIONS.
Proof.
  intros Hrun. unfold_handlers Hrun. split_guards Hrun; try discriminate.
  unfold_tail Hrun. injection Hrun as <- _. repeat split.
Qed.
End GarmentSelect.

Section VariationFailure.
Context `{Imports}.

(** C6. If the generation call of a variation handler throws, then when
    the handler has completed the instruction it adjusts has its value
    from before the call, the history is unchanged, the error is the
    friendly message of the thrown value, and [isLoading] is false. *)
Theorem variation_failure
    (s s' : State) (v : Variation) (err : Thrown) (call : ApiCall) :
  run (Rejected err) (adjust s v) = Finished s' [call] ->
  current (axisOf v) s' = current (axisOf v) s
  /\ outfitHistory s' = outfitHistory s
  /\ error s' = Some (getFriendlyErrorMessage err (failureContext v))
  /\ isLoading s' = false.
Proof.
  intros Hrun. destruct v; unfold_handlers Hrun;
    split_guards Hrun; try discriminate;
    unfold_tail Hrun; injection Hrun as <- _; repeat split.
Qed.
End VariationFailure.

Section VariationSuccess.
Context `{Imports}.

(** What a successful variation does in general: the new image is
    assigned under the requested key in the current layer. *)
Lemma variation_success_assign
    (s s' : State) (v : Variation) (newImageUrl : string) (call : ApiCall) :
  run (Resolved newImageUrl) (adjust s v) = Finished s' [call] ->
  exists layer,
    outfitHistory s !! currentOutfitIndex s = Some layer
    /\ cached layer (requestedKey s v) = false
    /\ s' = finallyBlock
              (setOutfitHistory
                 (<[currentOutfitIndex s :=
                      mkLayer (garment layer)
                        (setProp (generatedImages layer) (requestedKey s v) newImageUrl)]>
                    (outfitHistory s))
                 match axisOf v with
                 | Pose => setCurrentPoseInstruction (requested v) s
                 | Emotion => setCurrentEmotionInstruction (requested v) s
                 | Background => setCurrentBackgroundInstruction (requested v) s
                 | Color => setCurrentColorInstruction (requested v) s
                 end
               |> setError None).
Proof.
  intros Hrun.
  destruct v; unfold_handlers Hrun;
    (destruct (outfitHistory s !! currentOutfitIndex s) as [layer|] eqn:Hlayer;
     [exists layer | split_guards Hrun; discriminate]);
    split_guards Hrun; try discriminate;
    unfold_tail Hrun; simpl in Hrun; rewrite Hlayer in Hrun;
    injection Hrun as <- _; repeat split; assumption.
Qed.

(** C7 (amended). A successful variation on a layer that has no entry under
    the requested composite key appends exactly that entry to the current
    layer's map and keeps all its earlier entries; the layer's garment,
    every other layer, the length of the history and the index are
    unchanged; the adjusted instruction takes the requested value and the
    other three keep theirs. *)
Theorem variation_success
    (s s' : State) (v : Variation) (newImageUrl : string) (call : ApiCall)
    (layer : OutfitLayer) :
  run (Resolved newImageUrl) (adjust s v) = Finished s' [call] ->
  outfitHistory s !! currentOutfitIndex s = Some layer ->
  getProp (generatedImages layer) (requestedKey s v) = None ->
  outfitHistory s' !! currentOutfitIndex s =
    Some (mkLayer (garment layer)
            (generatedImages layer ++ [(requestedKey s v, newImageUrl)])%list)
  /\ length (outfitHistory s') = length (outfitHistory s)
  /\ (forall j, j <> currentOutfitIndex s ->
        outfitHistory s' !! j = outfitHistory s !! j)
  /\ currentOutfitIndex s' = currentOutfitIndex s
  /\ current (axisOf v) s' = requested v
  /\ (forall a, a <> axisOf v -> current a s' = current a s).
Proof.
  intros Hrun Hlayer Habsent.
  destruct (variation_success_assign _ _ _ _ _ Hrun) as (layer' & Hl & _ & ->).
  rewrite Hlayer in Hl. injection Hl as <-.
  rewrite (setProp_absent _ _ _ Habsent).
  apply lookup_lt_Some in Hlayer.
  repeat split.
  - destruct v; simpl; now apply list_lookup_insert_eq.
  - destruct v; simpl; apply length_insert.
  - intros j Hj. destruct v; simpl; now apply list_lookup_insert_ne.
  - destruct v; reflexivity.
  - destruct v; reflexivity.
  - intros a Ha. destruct v, a; simpl in *; congruence.
Qed.
End VariationSuccess.

(** ** C1: resolution order of displayImageUrl *)

Lemma startsWith_truthy (key prefix : string) :
  prefix <> "" -> startsWith key prefix = true -> truthy key = true.
Proof.
  intros Hp Hs. apply truthy_true_iff. intros ->.
  destruct prefix; [congruence | discriminate].
Qed.

Lemma startsWith_shorter (key p q : string) :
  startsWith key (p +:+ q) = true -> startsWith key p = true.
Proof.
  unfold startsWith. revert key. induction p as [|a p IH]; intros key; simpl.
  - destruct key; reflexivity.
  - destruct key as [|b key]; simpl; [discriminate|].
    destruct (ascii_dec a b); [apply IH | discriminate].
Qed.

Lemma append_underscore_nonempty (p : string) : p +:+ "_" <> "".
Proof. destruct p; discriminate. Qed.

Lemma append_cons (x : ascii) (a b : string) :
  String x a +:+ b = String x (a +:+ b).
Proof. reflexivity. Qed.

Lemma append_assoc (a b c : string) : (a +:+ b) +:+ c = a +:+ (b +:+ c).
Proof.
  induction a as [|x a IH]; [reflexivity|].
  rewrite !append_cons. now f_equal.
Qed.

Lemma arrayFind_first (pred : string -> bool) (before after : list string) (key : string) :
  pred key = true -> Forall (fun k => pred k = false) before ->
  arrayFind pred (before ++ key :: after) = Some key.
Proof.
  intros Hk Hb. unfold arrayFind.
  induction Hb as [|k before Hkf _ IH]; simpl.
  - now rewrite Hk.
  - now rewrite Hkf.
Qed.

Lemma arrayFind_none (pred : string -> bool) (keys : list string) :
  Forall (fun k => pred k = false) keys -> arrayFind pred keys = None.
Proof.
  intros Hk. unfold arrayFind.
  induction Hk as [|k keys Hkf _ IH]; simpl; [reflexivity | now rewrite Hkf].
Qed.

Lemma fallbackKey_first (prefix : string) (images : JsObject) (key : string) :
  prefix <> "" -> firstKeyWith prefix images key ->
  fallbackKey prefix images = Some key.
Proof.
  intros Hp (before & after & Hkeys & Hk & Hb). unfold fallbackKey.
  rewrite Hkeys, (arrayFind_first (fun k => startsWith k prefix)) by assumption.
  now rewrite (startsWith_truthy _ _ Hp Hk).
Qed.

Lemma fallbackKey_none (prefix : string) (images : JsObject) :
  noKeyWith prefix images -> fallbackKey prefix images = None.
Proof.
  intros Hn. unfold fallbackKey.
  now rewrite (arrayFind_none (fun k => startsWith k prefix)).
Qed.

Lemma noKeyWith_longer (p q : string) (images : JsObject) :
  noKeyWith p images -> noKeyWith (p +:+ q) images.
Proof.
  unfold noKeyWith. intros Hn. eapply Forall_impl; [exact Hn|].
  intros k Hk. simpl in Hk.
  destruct (startsWith k (p +:+ q)) eqn:E; [|reflexivity].
  apply startsWith_shorter in E. congruence.
Qed.

Lemma posePrefix_nonempty (s : State) : posePrefix s <> "".
Proof. apply append_underscore_nonempty. Qed.

Lemma poseEmotionPrefix_nonempty (s : State) : poseEmotionPrefix s <> "".
Proof.
  unfold poseEmotionPrefix. destruct (currentPoseInstruction s); discriminate.
Qed.

Lemma poseEmotionBgPrefix_nonempty (s : State) : poseEmotionBgPrefix s <> "".
Proof.
  unfold poseEmotionBgPrefix. destruct (currentPoseInstruction s); discriminate.
Qed.

Lemma poseEmotionPrefix_extends (s : State) :
  poseEmotionPrefix s = posePrefix s +:+ (currentEmotionInstruction s +:+ "_").
Proof. unfold poseEmotionPrefix, posePrefix. now rewrite append_assoc. Qed.

Lemma poseEmotionBgPrefix_extends (s : State) :
  poseEmotionBgPrefix s =
  posePrefix s +:+ (currentEmotionInstruction s +:+ "_"
                      +:+ currentBackgroundInstruction s +:+ "_").
Proof. unfold poseEmotionBgPrefix, posePrefix. now rewrite append_assoc. Qed.

(** C1 (amended). Without a current layer the displayed image is
    [modelImageUrl].  With a current layer: an entry with a non-empty URL
    under the composite key of the four current instructions is returned;
    otherwise, provided the composite key is not the name of a property
    inherited from [Object.prototype], the entry of the first key starting
    with [pose_emotion_background_]; otherwise that of the first key
    starting with [pose_emotion_]; otherwise that of the first key starting
    with [pose_]; otherwise the first value of the map. *)
Theorem displayImageUrl_resolution (s : State) :
  (outfitHistory s = [] \/ outfitHistory s !! currentOutfitIndex s = None ->
   displayImageUrl s = modelImageUrl s)
  /\ forall layer : OutfitLayer,
       outfitHistory s !! currentOutfitIndex s = Some layer ->
       let images := generatedImages layer in
       (forall url, getProp images (primaryKey s) = Some url -> url <> "" ->
          displayImageUrl s = Some url)
       /\ (truthyOpt (getProp images (primaryKey s)) = false ->
           inheritedProperty (primaryKey s) = false ->
           (forall key, firstKeyWith (poseEmotionBgPrefix s) images key ->
              displayImageUrl s = getProp images key)
           /\ (noKeyWith (poseEmotionBgPrefix s) images ->
               forall key, firstKeyWith (poseEmotionPrefix s) images key ->
                 displayImageUrl s = getProp images key)
           /\ (noKeyWith (poseEmotionPrefix s) images ->
               forall key, firstKeyWith (posePrefix s) images key ->
                 displayImageUrl s = getProp images key)
           /\ (noKeyWith (posePrefix s) images ->
               displayImageUrl s = List.head (objectValues images))).
Proof.
  split.
  - intros [Hempty | Hnone]; unfold displayImageUrl.
    + now rewrite Hempty.
    + rewrite Hnone. now destruct (length (outfitHistory s) =? 0)%nat.
  - intros layer Hlayer images.
    assert (Hlen : (length (outfitHistory s) =? 0)%nat = false).
    { apply lookup_lt_Some in Hlayer. apply Nat.eqb_neq. lia. }
    assert (Hd : displayImageUrl s = resolveImage s images).
    { unfold displayImageUrl. now rewrite Hlen, Hlayer. }
    rewrite Hd. unfold resolveImage. split.
    + intros url Hurl Hne. rewrite Hurl. simpl.
      apply truthy_true_iff in Hne. now rewrite Hne.
    + intros Hfalsy _. rewrite Hfalsy. repeat split.
      * intros key Hk.
        now rewrite (fallbackKey_first _ _ _ (poseEmotionBgPrefix_nonempty s) Hk).
      * intros Hno1 key Hk.
        rewrite (fallbackKey_none _ _ Hno1).
        now rewrite (fallbackKey_first _ _ _ (poseEmotionPrefix_nonempty s) Hk).
      * intros Hno2 key Hk.
        assert (Hno1 : noKeyWith (poseEmotionBgPrefix s) images).
        { unfold poseEmotionBgPrefix.
          replace (currentPoseInstruction s +:+ "_" +:+ currentEmotionInstruction s
                     +:+ "_" +:+ currentBackgroundInstruction s +:+ "_")
            with (poseEmotionPrefix s +:+ (currentBackgroundInstruction s +:+ "_")).
          - now apply noKeyWith_longer.
          - unfold poseEmotionPrefix. now rewrite !append_assoc. }
        rewrite (fallbackKey_none _ _ Hno1), (fallbackKey_none _ _ Hno2).
        now rewrite (fallbackKey_first _ _ _ (posePrefix_nonempty s) Hk).
      * intros Hno3.
        rewrite (fallbackKey_none (poseEmotionBgPrefix s)),
                (fallbackKey_none (poseEmotionPrefix s)),
                (fallbackKey_none (posePrefix s)); try assumption.
        -- reflexivity.
        -- rewrite poseEmotionPrefix_extends. now apply noKeyWith_longer.
        -- rewrite poseEmotionBgPrefix_extends. now apply noKeyWith_longer.
Qed.

(** ** C2: prefix matching against axis matching *)

Lemma startsWith_cons (a b : ascii) (key prefix : string) :
  startsWith (String a key) (String b prefix) = true ->
  a = b /\ startsWith key prefix = true.
Proof.
  unfold startsWith. simpl. destruct (ascii_dec b a); [auto | discriminate].
Qed.

Lemma startsWith_axis (p cp rest rest' : string) :
  noUnderscore p = true -> noUnderscore cp = true ->
  startsWith (p +:+ String "_" rest) (cp +:+ String "_" rest') = true ->
  p = cp /\ startsWith rest rest' = true.
Proof.
  revert cp. induction p as [|a p IH]; intros [|b cp] Hp Hcp Hs.
  - apply startsWith_cons in Hs as [_ Hs]. auto.
  - rewrite append_cons in Hs. apply startsWith_cons in Hs as [<- _].
    discriminate.
  - rewrite append_cons in Hs. apply startsWith_cons in Hs as [-> _].
    discriminate.
  - rewrite !append_cons in Hs. apply startsWith_cons in Hs as [<- Hs].
    simpl in Hp, Hcp. apply andb_prop in Hp as [_ Hp].
    apply andb_prop in Hcp as [_ Hcp].
    destruct (IH cp Hp Hcp Hs) as [-> Hr]. auto.
Qed.

(** Where no instruction contains an underscore, a key that matches a
    fallback prefix agrees with the current instructions on the axes of
    that prefix. *)
Lemma prefix_match_agrees_without_underscore
    (s : State) (pose emotion background color : string) :
  noUnderscore pose = true -> noUnderscore emotion = true ->
  noUnderscore background = true ->
  noUnderscore (currentPoseInstruction s) = true ->
  noUnderscore (currentEmotionInstruction s) = true ->
  noUnderscore (currentBackgroundInstruction s) = true ->
  let key := compositeKey pose emotion background color in
  (startsWith key (poseEmotionBgPrefix s) = true ->
     pose = currentPoseInstruction s /\ emotion = currentEmotionInstruction s
     /\ background = currentBackgroundInstruction s)
  /\ (startsWith key (poseEmotionPrefix s) = true ->
     pose = currentPoseInstruction s /\ emotion = currentEmotionInstruction s)
  /\ (startsWith key (posePrefix s) = true -> pose = currentPoseInstruction s).
Proof.
  intros Hp He Hb Hcp Hce Hcb key. subst key.
  unfold compositeKey, poseEmotionBgPrefix, poseEmotionPrefix, posePrefix.
  split; [|split]; intros Hs.
  - apply (startsWith_axis _ _ _ _ Hp Hcp) in Hs as [-> Hs].
    apply (startsWith_axis _ _ _ _ He Hce) in Hs as [-> Hs].
    apply (startsWith_axis _ _ _ "" Hb Hcb) in Hs as [-> _]. auto.
  - apply (startsWith_axis _ _ _ _ Hp Hcp) in Hs as [-> Hs].
    apply (startsWith_axis _ _ _ "" He Hce) in Hs as [-> _]. auto.
  - apply (startsWith_axis _ _ _ "" Hp Hcp) in Hs as [-> _]. auto.
Qed.

(** C2. With the custom pose [Side_view] cached and the custom pose [Side]
    current, the composite key is absent, no key matches the two longer
    prefixes, and the pose-level fallback selects the key of pose
    [Side_view]: the image shown for pose [Side] is the one generated for
    another pose. *)
Theorem fallback_selects_other_pose :
  let images := [(defaultKey, "model.png");
                 (compositeKey "Side_view" "Neutral" "Neutral studio backdrop" "Original",
                  "side_view.png")] in
  outfitHistory exPendingPose !! currentOutfitIndex exPendingPose
    = Some (mkLayer None images)
  /\ currentPoseInstruction exPendingPose = "Side"
  /\ getProp images (primaryKey exPendingPose) = None
  /\ fallbackKey (poseEmotionBgPrefix exPendingPose) images = None
  /\ fallbackKey (poseEmotionPrefix exPendingPose) images = None
  /\ fallbackKey (posePrefix exPendingPose) images
       = Some (compositeKey "Side_view" "Neutral" "Neutral studio backdrop" "Original")
  /\ "Side_view" <> currentPoseInstruction exPendingPose
  /\ displayImageUrl exPendingPose = Some "side_view.png".
Proof. repeat split. discriminate. Qed.

(** ** C5: delegation to the image service *)

Section Delegation.
Context `{Imports}.

Lemma lookup_Some_length_nonzero (s : State) (layer : OutfitLayer) :
  outfitHistory s !! currentOutfitIndex s = Some layer ->
  (length (outfitHistory s) =? 0)%nat = false.
Proof.
  intros Hlayer. apply lookup_lt_Some in Hlayer. apply Nat.eqb_neq. lia.
Qed.

(** A request whose composite key is cached only switches the current
    instruction; the service is not called. *)
Lemma cached_adjustment_returns (s : State) (v : Variation) (layer : OutfitLayer) :
  outfitHistory s !! currentOutfitIndex s = Some layer ->
  cached layer (requestedKey s v) = true ->
  apiCalls (adjust s v) = [].
Proof.
  intros Hlayer Hcached.
  destruct v; simpl; unfold requestedKey in Hcached; simpl in Hcached;
    unfold handlePoseSelect, handleEmotionSelect, handleBackgroundChange,
      handleBackgroundUpload, handleColorChange;
    rewrite Hlayer, Hcached;
    match goal with
    | |- context [if ?b then _ else _] => destruct b; reflexivity
    end.
Qed.

(** C5 (amended). Take a pose, emotion, background or colour request that
    differs from the current instruction, made while nothing is loading and
    the current layer exists (for colour, on a garment layer).  If its
    composite key is cached, the handler only switches the current
    instruction and returns; the service is not called.  If it is not
    cached, neither it nor the key of the base image names a property
    inherited from [Object.prototype], and the base image is non-empty,
    the service function of its handler is invoked on that base image. *)
Theorem adjustment_delegated
    (s : State) (v : Variation) (layer : OutfitLayer) :
  isLoading s = false ->
  outfitHistory s !! currentOutfitIndex s = Some layer ->
  requested v <> current (axisOf v) s ->
  (axisOf v = Color -> 0 < currentOutfitIndex s) ->
  (cached layer (requestedKey s v) = true ->
   adjust s v = Return (setCurrent (axisOf v) (requested v) s))
  /\ (cached layer (requestedKey s v) = false ->
      inheritedProperty (requestedKey s v) = false ->
      inheritedProperty (baseKey s v) = false ->
      forall base : string,
        baseImage s layer v = Some base -> base <> "" ->
        apiCalls (adjust s v) = [serviceCall v base]).
Proof.
  intros Hload Hlayer Hne Hidx.
  pose proof (lookup_Some_length_nonzero _ _ Hlayer) as Hlen.
  apply String.eqb_neq in Hne.
  assert (Hpos : axisOf v = Color -> (currentOutfitIndex s =? 0)%nat = false).
  { intros Hc. apply Nat.eqb_neq. specialize (Hidx Hc). lia. }
  split.
  - intros Hcached. unfold requestedKey in Hcached.
    destruct v; simpl in *;
      unfold handlePoseSelect, handleEmotionSelect, handleBackgroundChange,
        handleBackgroundUpload, handleColorChange;
      rewrite Hload, Hlen, ?Hne, ?(Hpos eq_refl), Hlayer, Hcached; reflexivity.
  - intros Hcached _ _ base Hbase Htruthy.
    apply truthy_true_iff in Htruthy.
    unfold requestedKey in Hcached.
    destruct v; simpl in *;
      unfold handlePoseSelect, handleEmotionSelect, handleBackgroundChange,
        handleBackgroundUpload, handleColorChange;
      rewrite Hload, Hlen, ?Hne, ?(Hpos eq_refl), Hlayer, Hcached, Hbase, Htruthy;
      reflexivity.
Qed.
End Delegation.

(** ** Composite keys and inherited property names *)

Lemma lastAscii_append (x y : string) :
  y <> "" -> lastAscii (x +:+ y) = lastAscii y.
Proof.
  intros Hy. induction x as [|a x IH]; [reflexivity|].
  rewrite append_cons. simpl. rewrite IH.
  destruct (x +:+ y) eqn:E; [|reflexivity].
  destruct x; [simpl in E; contradiction | discriminate].
Qed.

Lemma noUnderscore_append_underscore (x rest : string) :
  noUnderscore (x +:+ String "_" rest) = false.
Proof.
  induction x as [|a x IH]; [reflexivity|].
  rewrite append_cons. simpl. rewrite IH. apply andb_false_r.
Qed.

(** Every inherited name either has no underscore or ends with one. *)
Lemma inheritedProperty_shape (key : string) :
  inheritedProperty key = true ->
  noUnderscore key = true \/ lastAscii key = Some "_"%char.
Proof.
  unfold inheritedProperty, objectPrototypeNames. simpl.
  intros Hin.
  repeat (apply orb_prop in Hin as [Hin | Hin];
          [apply String.eqb_eq in Hin; subst key; vm_compute; auto|]).
  discriminate.
Qed.

(** A composite key whose colour is non-empty and does not end with an
    underscore is not an inherited name. *)
Lemma compositeKey_not_inherited
    (pose emotion background color : string) (c : ascii) :
  lastAscii color = Some c -> c <> "_"%char ->
  inheritedProperty (compositeKey pose emotion background color) = false.
Proof.
  intros Hlast Hc.
  destruct (inheritedProperty _) eqn:Hin; [|reflexivity].
  apply inheritedProperty_shape in Hin as [Hno | Hend].
  - assert (Hkey : noUnderscore (compositeKey pose emotion background color) = false)
      by apply (noUnderscore_append_underscore pose).
    congruence.
  - assert (Hne : color <> "") by (intros ->; discriminate).
    assert (Hsplit : compositeKey pose emotion background color
                     = (pose +:+ "_" +:+ emotion +:+ "_" +:+ background +:+ "_")
                         +:+ color).
    { unfold compositeKey. now rewrite !append_assoc. }
    rewrite Hsplit, (lastAscii_append _ _ Hne), Hlast in Hend. congruence.
Qed.

Lemma colorFromMenu_not_inherited (pose emotion background color : string) :
  colorFromMenu color = true ->
  inheritedProperty (compositeKey pose emotion background color) = false.
Proof.
  unfold colorFromMenu, COLOR_INSTRUCTIONS. simpl. intros Hin.
  repeat (apply orb_prop in Hin as [Hin | Hin];
          [apply String.eqb_eq in Hin; subst color;
           eapply compositeKey_not_inherited; [reflexivity | discriminate]|]).
  discriminate.
Qed.

Lemma originalColorKey_not_inherited (s : State) :
  inheritedProperty (originalColorKey s) = false.
Proof. now apply colorFromMenu_not_inherited. Qed.

(** ** C10: colour changes *)

Section ColorChange.
Context `{Imports}.

(** C10 (amended). [handleColorChange] returns the state unchanged on the
    base layer.  Whenever it calls the service, it is on a garment layer
    and the base image is the layer's non-empty entry under the current
    pose, emotion and background with the Original colour, a key that
    never names an inherited property.  While nothing is loading and the
    requested colour differs from the current one, on a garment layer
    where the requested key is neither cached nor the name of an inherited
    property: if the map has no Original-colour entry, the handler sets
    the error message, changes nothing else and calls nothing; if that
    entry is present and non-empty, it calls [generateColorVariation] on
    it with the requested colour. *)
Theorem handleColorChange_spec (s : State) (newInstruction : string) :
  (currentOutfitIndex s = 0 -> handleColorChange s newInstruction = Return s)
  /\ (forall s1 call resume,
        handleColorChange s newInstruction = Await s1 call resume ->
        exists layer base,
          0 < currentOutfitIndex s
          /\ outfitHistory s !! currentOutfitIndex s = Some layer
          /\ getProp (generatedImages layer) (originalColorKey s) = Some base
          /\ base <> ""
          /\ call = generateColorVariation base newInstruction)
  /\ inheritedProperty (originalColorKey s) = false
  /\ (forall layer,
        isLoading s = false ->
        newInstruction <> currentColorInstruction s ->
        0 < currentOutfitIndex s ->
        outfitHistory s !! currentOutfitIndex s = Some layer ->
        cached layer (compositeKey (currentPoseInstruction s)
                        (currentEmotionInstruction s)
                        (currentBackgroundInstruction s) newInstruction) = false ->
        inheritedProperty (compositeKey (currentPoseInstruction s)
                             (currentEmotionInstruction s)
                             (currentBackgroundInstruction s) newInstruction) = false ->
        (getProp (generatedImages layer) (originalColorKey s) = None ->
         handleColorChange s newInstruction
           = Return (setError (Some missingOriginalMessage) s))
        /\ (forall base,
              getProp (generatedImages layer) (originalColorKey s) = Some base ->
              base <> "" ->
              exists pending resume,
                handleColorChange s newInstruction
                  = Await pending (generateColorVariation base newInstruction) resume
                /\ isLoading pending = true
                /\ currentColorInstruction pending = newInstruction
                /\ outfitHistory pending = outfitHistory s)).
Proof.
  split; [|split; [|split]].
  - intros Hidx. unfold handleColorChange. rewrite Hidx. simpl.
    now rewrite !orb_true_r.
  - intros s1 call resume Hstep. unfold handleColorChange in Hstep.
    destruct (currentOutfitIndex s =? 0)%nat eqn:Hidx.
    { rewrite orb_true_r in Hstep. discriminate. }
    apply Nat.eqb_neq in Hidx.
    split_guards Hstep; try discriminate.
    injection Hstep as _ <- _.
    eexists _, _. repeat split; try reflexivity; try eassumption; try lia.
    now apply truthy_true_iff.
  - apply originalColorKey_not_inherited.
  - intros layer Hload Hne Hidx Hlayer Hcached _.
    pose proof (lookup_Some_length_nonzero _ _ Hlayer) as Hlen.
    apply String.eqb_neq in Hne.
    assert (Hpos : (currentOutfitIndex s =? 0)%nat = false)
      by (apply Nat.eqb_neq; lia).
    split.
    + intros Habsent. unfold handleColorChange.
      now rewrite Hload, Hlen, Hne, Hpos, Hlayer, Hcached, Habsent.
    + intros base Hbase Htruthy. apply truthy_true_iff in Htruthy.
      unfold handleColorChange.
      rewrite Hload, Hlen, Hne, Hpos, Hlayer, Hcached, Hbase, Htruthy. simpl.
      eexists _, _. repeat split.
Qed.
End ColorChange.

(** ** C8: undo then redo *)

Section UndoRedo.
Context `{Imports}.

(** C8 (amended). On the base layer [handleRemoveLastGarment] changes
    nothing.  On a garment layer it decrements the index and keeps the
    history; if nothing is loading and the image displayed after the undo
    is non-empty, selecting the garment of the layer that was left returns
    to the original index without calling the service and without touching
    the history. *)
Theorem undo_redo_round_trip (s : State) :
  (currentOutfitIndex s = 0 -> handleRemoveLastGarment s = s)
  /\ (0 < currentOutfitIndex s ->
      currentOutfitIndex (handleRemoveLastGarment s) = currentOutfitIndex s - 1
      /\ outfitHistory (handleRemoveLastGarment s) = outfitHistory s)
  /\ (forall layer g garmentFile garmentInfo image,
        0 < currentOutfitIndex s ->
        outfitHistory s !! currentOutfitIndex s = Some layer ->
        garment layer = Some g ->
        WardrobeItem.id garmentInfo = WardrobeItem.id g ->
        isLoading s = false ->
        displayImageUrl (handleRemoveLastGarment s) = Some image ->
        image <> "" ->
        exists s2,
          handleGarmentSelect (handleRemoveLastGarment s) garmentFile garmentInfo
            = Return s2
          /\ currentOutfitIndex s2 = currentOutfitIndex s
          /\ outfitHistory s2 = outfitHistory s).
Proof.
  unfold handleRemoveLastGarment. split; [|split].
  - intros ->. reflexivity.
  - intros Hidx. apply Nat.ltb_lt in Hidx. rewrite Hidx. split; reflexivity.
  - intros layer g garmentFile garmentInfo image Hidx Hlayer Hg Hid Hload Himg Hne.
    pose proof Hidx as Hlt. apply Nat.ltb_lt in Hlt. rewrite Hlt in *.
    apply truthy_true_iff in Hne.
    unfold handleGarmentSelect. rewrite Himg, Hne. simpl.
    rewrite Hload. simpl.
    replace (currentOutfitIndex s - 1 + 1) with (currentOutfitIndex s) by lia.
    rewrite Hlayer. simpl. rewrite Hg, Hid, String.eqb_refl.
    eexists. repeat split.
Qed.
End UndoRedo.

(** ** C4: the history invariant *)

Section Invariant.
Context `{Imports}.

(** A variation handler leaves the index and the model image alone, and
    either keeps the history or assigns one image in the current layer. *)
Lemma adjust_frame (s s' : State) (v : Variation) (result : ApiResult)
    (calls : list ApiCall) :
  run result (adjust s v) = Finished s' calls ->
  currentOutfitIndex s' = currentOutfitIndex s
  /\ modelImageUrl s' = modelImageUrl s
  /\ (outfitHistory s' = outfitHistory s
      \/ exists layer key newImageUrl,
           outfitHistory s !! currentOutfitIndex s = Some layer
           /\ outfitHistory s' =
                <[currentOutfitIndex s :=
                    mkLayer (garment layer)
                      (setProp (generatedImages layer) key newImageUrl)]>
                  (outfitHistory s)).
Proof.
  intros Hrun.
  destruct v; unfold_handlers Hrun;
    destruct (outfitHistory s !! currentOutfitIndex s) as [layer|] eqn:Hlayer;
    split_guards Hrun; try discriminate;
    try (simpl in Hrun; injection Hrun as <- _; repeat split; left; reflexivity);
    destruct result; unfold_tail Hrun; simpl in Hrun;
    try rewrite Hlayer in Hrun;
    injection Hrun as <- _; repeat split;
    solve [ left; reflexivity
          | right; eexists _, _, _; split; reflexivity ].
Qed.

Lemma layersWellFormed_assign (history : list OutfitLayer) (index : nat)
    (layer : OutfitLayer) (key value : string) :
  layersWellFormed history ->
  history !! index = Some layer ->
  layersWellFormed
    (<[index := mkLayer (garment layer) (setProp (generatedImages layer) key value)]>
       history).
Proof.
  intros Hwf Hlayer i layer' Hi.
  destruct (decide (i = index)) as [->|Hne].
  - rewrite list_lookup_insert_eq in Hi by (eapply lookup_lt_Some; eassumption).
    injection Hi as <-. simpl.
    destruct (Hwf _ _ Hlayer) as (_ & Hbase & Hgarment).
    split; [apply setProp_nonempty | split; assumption].
  - rewrite list_lookup_insert_ne in Hi by congruence. now apply Hwf.
Qed.

Lemma layersWellFormed_push (history : list OutfitLayer) (index : nat)
    (garmentInfo : WardrobeItem.t) (images : JsObject) :
  layersWellFormed history ->
  index < length history ->
  images <> [] ->
  layersWellFormed (take (index + 1) history ++ [mkLayer (Some garmentInfo) images]).
Proof.
  intros Hwf Hindex Himages i layer Hi.
  assert (Hlen : length (take (index + 1) history) = index + 1)
    by (rewrite length_take; lia).
  destruct (decide (i < index + 1)) as [Hlt|Hge].
  - rewrite lookup_app_l in Hi by lia.
    rewrite lookup_take_lt in Hi by lia. now apply Hwf.
  - rewrite lookup_app_r in Hi by lia. rewrite Hlen in Hi.
    destruct (i - (index + 1)) as [|n] eqn:Hd; simpl in Hi; [|discriminate].
    injection Hi as <-. simpl. repeat split; [assumption | lia | discriminate].
Qed.

Lemma inductiveInvariant_intro (s : State) :
  (outfitHistory s = [] -> currentOutfitIndex s = 0) ->
  (outfitHistory s <> [] -> currentOutfitIndex s < length (outfitHistory s)) ->
  layersWellFormed (outfitHistory s) ->
  (outfitHistory s = [] -> modelImageUrl s = None) ->
  inductiveInvariant s.
Proof. intros. split; [split; [|split]|]; assumption. Qed.

Lemma layersWellFormed_nil : layersWellFormed [].
Proof. intros i layer Hi. discriminate. Qed.

Lemma layersWellFormed_base (images : JsObject) :
  images <> [] -> layersWellFormed [mkLayer None images].
Proof.
  intros Himages i layer Hi. destruct i; [|discriminate].
  injection Hi as <-. simpl. split; [assumption | split; [reflexivity | lia]].
Qed.

Lemma inductiveInvariant_initial : inductiveInvariant initialState.
Proof.
  apply inductiveInvariant_intro; simpl; try congruence.
  apply layersWellFormed_nil.
Qed.

Lemma displayImageUrl_needs_history (s : State) (image : string) :
  inductiveInvariant s -> displayImageUrl s = Some image -> outfitHistory s <> [].
Proof.
  intros (_ & Hmodel) Hd Hempty. unfold displayImageUrl in Hd.
  rewrite Hempty in Hd. simpl in Hd. rewrite (Hmodel Hempty) in Hd. discriminate.
Qed.

Lemma inductiveInvariant_step (s s' : State) (op : Op) (result : ApiResult)
    (calls : list ApiCall) :
  inductiveInvariant s ->
  run result (dispatch s op) = Finished s' calls ->
  inductiveInvariant s'.
Proof.
  intros Hinv Hrun. pose proof Hinv as ((Hempty & Hrange & Hwf) & Hmodel).
  destruct op as [url | | garmentFile garmentInfo | | v].
  - (* handleModelFinalized *)
    injection Hrun as <- _.
    apply inductiveInvariant_intro; simpl; try congruence; try lia.
    apply layersWellFormed_base. discriminate.
  - (* handleStartOver *)
    injection Hrun as <- _.
    apply inductiveInvariant_intro; simpl; try congruence.
    apply layersWellFormed_nil.
  - (* handleGarmentSelect *)
    simpl in Hrun. unfold handleGarmentSelect in Hrun.
    destruct (displayImageUrl s) as [image|] eqn:Hd;
      [| injection Hrun as <- _; exact Hinv].
    pose proof (displayImageUrl_needs_history _ _ Hinv Hd) as Hne.
    specialize (Hrange Hne).
    split_guards Hrun; try discriminate.
    + injection Hrun as <- _. exact Hinv.
    + injection Hrun as <- _.
      match goal with
      | Hnext : isNextLayerOf _ _ = true |- _ =>
          unfold isNextLayerOf in Hnext;
          destruct (outfitHistory s !! (currentOutfitIndex s + 1)) eqn:Hl;
          [apply lookup_lt_Some in Hl | discriminate]
      end.
      apply inductiveInvariant_intro; simpl; try assumption; congruence.
    + unfold run in Hrun. destruct result; injection Hrun as <- _.
      * apply inductiveInvariant_intro; simpl.
        -- intros Happ. destruct (take _ _); discriminate.
        -- intros _. rewrite length_app, length_take. simpl. lia.
        -- apply layersWellFormed_push; [assumption | assumption | discriminate].
        -- intros Happ. destruct (take _ _); discriminate.
      * apply inductiveInvariant_intro; simpl; try assumption. now intros _.
  - (* handleRemoveLastGarment *)
    injection Hrun as <- _. unfold handleRemoveLastGarment.
    destruct (0 <? currentOutfitIndex s)%nat eqn:Hpos; [|exact Hinv].
    apply Nat.ltb_lt in Hpos.
    apply inductiveInvariant_intro; simpl; try assumption.
    + intros Hnil. specialize (Hempty Hnil). lia.
    + intros Hnn. specialize (Hrange Hnn). lia.
  - (* the variation handlers *)
    simpl in Hrun.
    destruct (adjust_frame _ _ _ _ _ Hrun) as (Hidx & Hurl & Hhist).
    destruct Hhist as [Hsame | (layer & key & newImageUrl & Hlayer & Hnew)].
    + unfold inductiveInvariant, historyInvariant.
      rewrite Hidx, Hurl, Hsame. exact Hinv.
    + assert (Hnn : outfitHistory s <> [])
        by (intros Hnil; rewrite Hnil in Hlayer; discriminate).
      assert (Hnn' : outfitHistory s' <> []).
      { intros Hnil. apply (f_equal length) in Hnil.
        rewrite Hnew, length_insert in Hnil.
        destruct (outfitHistory s); [congruence | discriminate]. }
      apply inductiveInvariant_intro; rewrite ?Hidx;
        try (intros; contradiction).
      * intros _. rewrite Hnew, length_insert. now apply Hrange.
      * rewrite Hnew. now apply layersWellFormed_assign.
Qed.

Lemma reachable_inductiveInvariant (s : State) :
  reachable s -> inductiveInvariant s.
Proof.
  induction 1 as [|s op result s' calls _ IH Hrun].
  - apply inductiveInvariant_initial.
  - eapply inductiveInvariant_step; eassumption.
Qed.

Lemma reachableVia_reachable (allowed : Op -> bool) (s : State) :
  reachableVia allowed s -> reachable s.
Proof.
  induction 1 as [|s op result s' calls _ IH _ Hrun]; [constructor|].
  eapply reachable_step; eassumption.
Qed.

(** A handler that waits for the service has set [isLoading]. *)
Lemma suspended_loading (s s' : State) (op : Op) (call : ApiCall)
    (resume : ApiResult -> State -> option State) :
  dispatch s op = Await s' call resume -> isLoading s' = true.
Proof.
  intros Hstep.
  destruct op as [url | | garmentFile garmentInfo | | v]; try discriminate.
  - unfold_handlers Hstep. split_guards Hstep; try discriminate.
    injection Hstep as <- _ _. reflexivity.
  - change (adjust s v = Await s' call resume) in Hstep.
    destruct v; unfold_handlers Hstep; split_guards Hstep; try discriminate;
      injection Hstep as <- _ _; reflexivity.
Qed.

(** While [isLoading] is set, the handlers that test it do nothing. *)
Lemma loading_ignored (s : State) (op : Op) :
  isLoading s = true -> unguarded op = false -> dispatch s op = Return s.
Proof.
  intros Hload Hop.
  destruct op as [url | | garmentFile garmentInfo | | v]; try discriminate.
  - simpl. unfold handleGarmentSelect.
    destruct (displayImageUrl s) as [image|]; [destruct (truthy image)|];
      rewrite ?Hload; reflexivity.
  - destruct v; simpl;
      unfold handlePoseSelect, handleEmotionSelect, handleBackgroundChange,
        handleBackgroundUpload, handleColorChange;
      rewrite Hload; reflexivity.
Qed.

(** In an orderly run at most one request is pending, and the state does
    not change while it is: when nothing is pending, the state is one that
    the same operations reach when each completes before the next
    starts. *)
Lemma orderly_atomic (allowed : Op -> bool) (s : State)
    (pending : list (ApiResult -> State -> option State)) :
  orderly allowed s pending ->
  (pending = [] /\ reachableVia allowed s)
  \/ (exists s0 op call resume,
        pending = [resume]
        /\ reachableVia allowed s0
        /\ allowed op = true
        /\ dispatch s0 op = Await s call resume).
Proof.
  induction 1 as [| s pending op s' _ IH Hallowed Hguard Hstep
                  | s pending op s' call resume _ IH Hallowed Hguard Hstep
                  | s before resume after result s' _ IH Hres].
  - left. split; [reflexivity | constructor].
  - destruct IH as [[-> Hreach] | (s0 & op0 & call0 & resume0 & -> & Hreach & Hop0 & Hstep0)].
    + left. split; [reflexivity|].
      apply (reachableVia_step allowed s op (Resolved "") s' []);
        [exact Hreach | exact Hallowed | now rewrite Hstep].
    + right. exists s0, op0, call0, resume0.
      assert (Hop : unguarded op = false).
      { destruct (unguarded op); [specialize (Hguard eq_refl); discriminate | reflexivity]. }
      rewrite (loading_ignored s op (suspended_loading _ _ _ _ _ Hstep0) Hop) in Hstep.
      injection Hstep as <-. auto.
  - destruct IH as [[-> Hreach] | (s0 & op0 & call0 & resume0 & -> & Hreach & Hop0 & Hstep0)].
    + right. exists s, op, call, resume. auto.
    + assert (Hop : unguarded op = false).
      { destruct (unguarded op); [specialize (Hguard eq_refl); discriminate | reflexivity]. }
      rewrite (loading_ignored s op (suspended_loading _ _ _ _ _ Hstep0) Hop) in Hstep.
      discriminate.
  - destruct IH as [[Hnil _] | (s0 & op0 & call0 & resume0 & Hone & Hreach & Hop0 & Hstep0)].
    + destruct before; discriminate.
    + destruct before as [|r before]; [|destruct before; discriminate].
      simpl in Hone. injection Hone as -> ->. left. split; [reflexivity|].
      apply (reachableVia_step allowed s0 op0 result s' [call0]);
        [exact Hreach | exact Hop0 |].
      rewrite Hstep0. simpl. now rewrite Hres.
Qed.

Lemma orderly_quiescent (allowed : Op -> bool) (s : State) :
  orderly allowed s [] -> reachableVia allowed s.
Proof.
  intros Hrun.
  destruct (orderly_atomic _ _ _ Hrun) as [[_ Hreach] | (? & ? & ? & ? & ? & _)];
    [exact Hreach | discriminate].
Qed.

(** Operations of which each completes before the next starts form an
    orderly run. *)
Lemma reachableVia_orderly (allowed : Op -> bool) (s : State) :
  reachableVia allowed s -> orderly allowed s [].
Proof.
  induction 1 as [|s op result s' calls _ IH Hallowed Hrun]; [constructor|].
  destruct (dispatch s op) as [s1 | | s1 call resume] eqn:Hstep; simpl in Hrun;
    [| discriminate |].
  - injection Hrun as <- _.
    apply (orderly_return allowed s [] op s1); auto.
  - destruct (resume result s1) as [s2|] eqn:Hres; [|discriminate].
    injection Hrun as <- _.
    refine (orderly_complete allowed s1 [] resume [] result _ _ Hres).
    apply (orderly_await allowed s [] op s1 call resume); auto.
Qed.


(** Orderly runs are runs of [interleaved]. *)
Lemma orderly_interleaved (allowed : Op -> bool) (s : State)
    (pending : list (ApiResult -> State -> option State)) :
  orderly allowed s pending -> interleaved s pending.
Proof.
  induction 1; [constructor | eapply interleaved_return; eassumption
               | eapply interleaved_await; eassumption
               | eapply interleaved_complete; eassumption].
Qed.


(** The runs of [reachable] are the runs of [interleaved] in which every
    resumption completes before the next operation starts. *)
Lemma reachable_interleaved (s : State) : reachable s -> interleaved s [].
Proof.
  induction 1 as [|s op result s' calls _ IH Hrun]; [constructor|].
  unfold run in Hrun. destruct (dispatch s op) as [s1 | | s1 call resume] eqn:Hd;
    try discriminate.
  - injection Hrun as <- _. eapply interleaved_return; eassumption.
  - destruct (resume result s1) as [s2|] eqn:Hres; [|discriminate].
    injection Hrun as <- _.
    refine (interleaved_complete s1 [] resume [] result _ _ Hres).
    eapply interleaved_await; eassumption.
Qed.

(** Under the invariant no operation throws: every handler runs to a
    final state. *)
Lemma invariant_no_crash (s : State) (op : Op) (result : ApiResult) :
  inductiveInvariant s ->
  exists s' calls, run result (dispatch s op) = Finished s' calls.
Proof.
  intros ((Hempty & Hrange & _) & Hmodel).
  assert (Hlayer : (length (outfitHistory s) =? 0)%nat = false ->
                   exists layer, outfitHistory s !! currentOutfitIndex s = Some layer).
  { intros Hlen. apply Nat.eqb_neq in Hlen. apply lookup_lt_is_Some.
    apply Hrange. intros Hnil. rewrite Hnil in Hlen. simpl in Hlen. lia. }
  destruct op as [url | | garmentFile garmentInfo | | v];
    try (eexists _, _; reflexivity).
  - simpl. unfold handleGarmentSelect.
    destruct (displayImageUrl s); [|eexists _, _; reflexivity].
    destruct (negb (truthy _) || isLoading s); [eexists _, _; reflexivity|].
    destruct (isNextLayerOf _ _); eexists _, _; reflexivity.
  - destruct v; simpl;
      unfold handlePoseSelect, handleEmotionSelect, handleBackgroundChange,
        handleBackgroundUpload, handleColorChange;
      (destruct (length (outfitHistory s) =? 0)%nat eqn:Hlen;
       [ rewrite ?orb_true_r; simpl; eexists _, _; reflexivity |]);
      destruct (Hlayer eq_refl) as [layer Hl]; rewrite Hl;
      repeat match goal with
             | |- context [if ?b then _ else _] =>
                 destruct b; try (eexists _, _; reflexivity)
             | |- context [match ?x with Some _ => _ | None => _ end] =>
                 destruct x; try (eexists _, _; reflexivity)
             end;
      unfold run, variationTail, assignGeneratedImage; simpl;
      rewrite Hl; destruct result; eexists _, _; reflexivity.
Qed.
End Invariant.

(** * The theorems at concrete states *)

(** A model is finalized, then the shirt is selected and its try-on call
    succeeds. *)
Lemma exDressed_orderly (allowed : Op -> bool) :
  allowed (OpModelFinalized "model.png") = true ->
  allowed (OpGarmentSelect shirtFile shirt) = true ->
  orderly allowed exDressed [].
Proof.
  intros Hmodel Hshirt.
  apply (orderly_complete allowed
           (suspended exModel (OpGarmentSelect shirtFile shirt)) []
           (match handleGarmentSelect exModel shirtFile shirt with
            | Await _ _ resume => resume
            | _ => fun _ _ => None
            end)
           [] (Resolved "shirt-on.png") exDressed); [|reflexivity].
  apply (orderly_await allowed exModel [] (OpGarmentSelect shirtFile shirt) _
           (generateVirtualTryOnImage "model.png" shirtFile));
    [| exact Hshirt | reflexivity | reflexivity].
  apply (orderly_return allowed initialState [] (OpModelFinalized "model.png"));
    [apply orderly_init | exact Hmodel | reflexivity | reflexivity].
Defined.

Lemma exDressed_reachable : reachable exDressed.
Proof.
  eapply reachable_step with (s := exModel)
    (op := OpGarmentSelect shirtFile shirt) (result := Resolved "shirt-on.png");
    [| reflexivity].
  eapply reachable_step with (s := initialState)
    (op := OpModelFinalized "model.png") (result := Resolved "");
    [apply reachable_init | reflexivity].
Defined.

(** The display resolution on the pending custom pose: the composite key is
    absent, no key has the two longer prefixes, and the first key with the
    pose prefix is used. *)
Lemma displayImageUrl_resolution_witness :
  let images := [(defaultKey, "model.png");
                 (compositeKey "Side_view" "Neutral" "Neutral studio backdrop" "Original",
                  "side_view.png")] in
  outfitHistory exPendingPose !! currentOutfitIndex exPendingPose
    = Some (mkLayer None images)
  /\ truthyOpt (getProp images (primaryKey exPendingPose)) = false
  /\ inheritedProperty (primaryKey exPendingPose) = false
  /\ noKeyWith (poseEmotionPrefix exPendingPose) images
  /\ firstKeyWith (posePrefix exPendingPose) images
       (compositeKey "Side_view" "Neutral" "Neutral studio backdrop" "Original")
  /\ displayImageUrl exPendingPose = Some "side_view.png".
Proof.
  intros images.
  assert (Hlayer : outfitHistory exPendingPose !! currentOutfitIndex exPendingPose
                   = Some (mkLayer None images)) by reflexivity.
  assert (Hfalsy : truthyOpt (getProp images (primaryKey exPendingPose)) = false)
    by reflexivity.
  assert (Hno : noKeyWith (poseEmotionPrefix exPendingPose) images)
    by (repeat constructor).
  assert (Hfirst : firstKeyWith (posePrefix exPendingPose) images
            (compositeKey "Side_view" "Neutral" "Neutral studio backdrop" "Original")).
  { exists [defaultKey], []. repeat split. repeat constructor. }
  assert (Hown : inheritedProperty (primaryKey exPendingPose) = false)
    by reflexivity.
  refine (conj Hlayer (conj Hfalsy (conj Hown (conj Hno (conj Hfirst _))))).
  destruct (displayImageUrl_resolution exPendingPose) as [_ Hres].
  destruct (Hres _ Hlayer) as [_ Hfallback].
  destruct (Hfallback Hfalsy Hown) as (_ & _ & Hpose & _).
  exact (Hpose Hno _ Hfirst).
Defined.

(** C1, as stated, fails: the layer has an entry under the composite key of
    the current instructions, holding the empty URL, and the displayed
    image is the entry of another key. *)
Lemma displayImageUrl_skips_empty_entry :
  let images := [(defaultKey, "shirt-on.png");
                 (compositeKey (first POSE_INSTRUCTIONS) (first EMOTION_INSTRUCTIONS)
                    (first BACKGROUND_INSTRUCTIONS) "Vibrant Red", "")] in
  outfitHistory exEmptyRed !! currentOutfitIndex exEmptyRed
    = Some (mkLayer (Some shirt) images)
  /\ primaryKey exEmptyRed
       = compositeKey (first POSE_INSTRUCTIONS) (first EMOTION_INSTRUCTIONS)
           (first BACKGROUND_INSTRUCTIONS) "Vibrant Red"
  /\ getProp images (primaryKey exEmptyRed) = Some ""
  /\ displayImageUrl exEmptyRed = Some "shirt-on.png"
  /\ displayImageUrl exEmptyRed <> getProp images (primaryKey exEmptyRed).
Proof. repeat split. discriminate. Qed.

Lemma handleGarmentSelect_success_witness :
  run (Resolved "shirt-on.png") (handleGarmentSelect exModel shirtFile shirt)
    = Finished exDressed [generateVirtualTryOnImage "model.png" shirtFile]
  /\ outfitHistory exDressed =
       [mkLayer None [(defaultKey, "model.png")];
        mkLayer (Some shirt) [(defaultKey, "shirt-on.png")]]
  /\ currentOutfitIndex exDressed = currentOutfitIndex exModel + 1.
Proof.
  assert (Hrun : run (Resolved "shirt-on.png")
                   (handleGarmentSelect exModel shirtFile shirt)
                 = Finished exDressed [generateVirtualTryOnImage "model.png" shirtFile])
    by reflexivity.
  destruct (handleGarmentSelect_success _ _ _ _ _ _ Hrun) as (Hhist & Hidx & _).
  exact (conj Hrun (conj Hhist Hidx)).
Defined.



(** C5, as stated, fails: the request differs from the current pose,
    nothing is loading and the history is non-empty, yet the composite key
    is cached and the service is not called. *)
Lemma cached_request_calls_nothing :
  isLoading exCustomPose = false
  /\ outfitHistory exCustomPose <> []
  /\ first POSE_INSTRUCTIONS <> currentPoseInstruction exCustomPose
  /\ apiCalls (handlePoseSelect exCustomPose (first POSE_INSTRUCTIONS)) = []
  /\ handlePoseSelect exCustomPose (first POSE_INSTRUCTIONS)
       = Return (setCurrentPoseInstruction (first POSE_INSTRUCTIONS) exCustomPose).
Proof. repeat split; discriminate. Qed.

Lemma adjustment_delegated_witness :
  isLoading exDressed = false
  /\ outfitHistory exDressed !! currentOutfitIndex exDressed
       = Some (mkLayer (Some shirt) [(defaultKey, "shirt-on.png")])
  /\ inheritedProperty (requestedKey exDressed (ColorChange "Deep Blue")) = false
  /\ inheritedProperty (baseKey exDressed (ColorChange "Deep Blue")) = false
  /\ apiCalls (adjust exDressed (ColorChange "Deep Blue"))
       = [generateColorVariation "shirt-on.png" "Deep Blue"].
Proof.
  assert (Hlayer : outfitHistory exDressed !! currentOutfitIndex exDressed
                   = Some (mkLayer (Some shirt) [(defaultKey, "shirt-on.png")]))
    by reflexivity.
  refine (conj eq_refl (conj Hlayer (conj eq_refl (conj eq_refl _)))).
  assert (Hidx : axisOf (ColorChange "Deep Blue") = Color ->
                 0 < currentOutfitIndex exDressed) by (intros _; simpl; lia).
  assert (Hne : requested (ColorChange "Deep Blue")
                <> current (axisOf (ColorChange "Deep Blue")) exDressed)
    by discriminate.
  destruct (adjustment_delegated exDressed (ColorChange "Deep Blue") _
              eq_refl Hlayer Hne Hidx) as [_ Hcall].
  apply (Hcall eq_refl eq_refl eq_refl "shirt-on.png" eq_refl). discriminate.
Defined.

Lemma variation_failure_witness :
  let s' := after exDressed (OpAdjust (PoseSelect "Side profile view")) (Rejected "quota") in
  run (Rejected "quota") (adjust exDressed (PoseSelect "Side profile view"))
    = Finished s' [generatePoseVariation "shirt-on.png" "Side profile view"]
  /\ currentPoseInstruction s' = currentPoseInstruction exDressed
  /\ outfitHistory s' = outfitHistory exDressed
  /\ error s' = Some "Failed to change pose: quota"
  /\ isLoading s' = false.
Proof.
  intros s'.
  assert (Hrun : run (Rejected "quota") (adjust exDressed (PoseSelect "Side profile view"))
                 = Finished s' [generatePoseVariation "shirt-on.png" "Side profile view"])
    by reflexivity.
  split; [exact Hrun|].
  exact (variation_failure _ _ _ _ _ Hrun).
Defined.

Lemma variation_success_witness :
  let v := PoseSelect "Side profile view" in
  let s' := after exDressed (OpAdjust v) (Resolved "side.png") in
  let layer := mkLayer (Some shirt) [(defaultKey, "shirt-on.png")] in
  run (Resolved "side.png") (adjust exDressed v)
    = Finished s' [generatePoseVariation "shirt-on.png" "Side profile view"]
  /\ outfitHistory exDressed !! currentOutfitIndex exDressed = Some layer
  /\ getProp (generatedImages layer) (requestedKey exDressed v) = None
  /\ outfitHistory s' !! currentOutfitIndex exDressed =
       Some (mkLayer (Some shirt)
               [(defaultKey, "shirt-on.png");
                (compositeKey "Side profile view" "Neutral" "Neutral studio backdrop"
                   "Original", "side.png")])
  /\ currentPoseInstruction s' = "Side profile view".
Proof.
  intros v s' layer.
  assert (Hrun : run (Resolved "side.png") (adjust exDressed v)
                 = Finished s' [generatePoseVariation "shirt-on.png" "Side profile view"])
    by reflexivity.
  assert (Hlayer : outfitHistory exDressed !! currentOutfitIndex exDressed = Some layer)
    by reflexivity.
  assert (Habsent : getProp (generatedImages layer) (requestedKey exDressed v) = None)
    by reflexivity.
  destruct (variation_success _ _ _ _ _ _ Hrun Hlayer Habsent)
    as (Hnew & _ & _ & _ & Hpose & _).
  exact (conj Hrun (conj Hlayer (conj Habsent (conj Hnew Hpose)))).
Defined.

(** C7, as stated, fails: the retried colour request succeeds, but the key
    was already in the layer's map with an empty URL, so no entry is added
    and an existing entry is replaced. *)
Lemma successful_variation_overwrites_empty_entry :
  let v := ColorChange "Vibrant Red" in
  let red := compositeKey (first POSE_INSTRUCTIONS) (first EMOTION_INSTRUCTIONS)
               (first BACKGROUND_INSTRUCTIONS) "Vibrant Red" in
  let s' := after exRedRetry (OpAdjust v) (Resolved "red.png") in
  run (Resolved "red.png") (adjust exRedRetry v)
    = Finished s' [generateColorVariation "shirt-on.png" "Vibrant Red"]
  /\ outfitHistory exRedRetry !! currentOutfitIndex exRedRetry
       = Some (mkLayer (Some shirt) [(defaultKey, "shirt-on.png"); (red, "")])
  /\ requestedKey exRedRetry v = red
  /\ outfitHistory s' !! currentOutfitIndex exRedRetry
       = Some (mkLayer (Some shirt) [(defaultKey, "shirt-on.png"); (red, "red.png")])
  /\ getProp [(defaultKey, "shirt-on.png"); (red, "red.png")] red
       <> getProp [(defaultKey, "shirt-on.png"); (red, "")] red.
Proof. repeat split. discriminate. Qed.

Lemma undo_redo_round_trip_witness :
  0 < currentOutfitIndex exDressed
  /\ currentOutfitIndex (handleRemoveLastGarment exDressed) = 0
  /\ exists s2,
       handleGarmentSelect (handleRemoveLastGarment exDressed) shirtFile shirt
         = Return s2
       /\ currentOutfitIndex s2 = currentOutfitIndex exDressed
       /\ outfitHistory s2 = outfitHistory exDressed.
Proof.
  assert (Hpos : 0 < currentOutfitIndex exDressed) by (simpl; lia).
  destruct (undo_redo_round_trip exDressed) as (_ & Hundo & Hredo).
  split; [exact Hpos|]. split; [exact (proj1 (Hundo Hpos))|].
  apply (Hredo (mkLayer (Some shirt) [(defaultKey, "shirt-on.png")]) shirt
           shirtFile shirt "model.png" Hpos);
    try reflexivity. discriminate.
Defined.

(** C8, as stated, fails: while a generation is in progress the undo steps
    down, but selecting the garment of the layer that was left returns at
    the handler's guard and the index stays where the undo put it. *)
Lemma redo_blocked_while_loading :
  currentOutfitIndex exDressedLoading = 1
  /\ (exists layer, outfitHistory exDressedLoading !! 1 = Some layer
                    /\ garment layer = Some shirt)
  /\ currentOutfitIndex (handleRemoveLastGarment exDressedLoading) = 0
  /\ handleGarmentSelect (handleRemoveLastGarment exDressedLoading) shirtFile shirt
       = Return (handleRemoveLastGarment exDressedLoading)
  /\ currentOutfitIndex (handleRemoveLastGarment exDressedLoading)
       <> currentOutfitIndex exDressedLoading.
Proof.
  split; [reflexivity|]. split; [eexists; split; reflexivity|].
  split; [reflexivity|]. split; [reflexivity | discriminate].
Qed.

Lemma handleColorChange_spec_witness :
  let s := after (after exDressed (OpAdjust (ColorChange "Vibrant Red"))
                    (Resolved "red.png"))
             (OpAdjust (PoseSelect "Side profile view")) (Resolved "side-red.png") in
  handleColorChange exModel "Deep Blue" = Return exModel
  /\ isLoading s = false
  /\ 0 < currentOutfitIndex s
  /\ handleColorChange s "Deep Blue"
       = Return (setError (Some missingOriginalMessage) s)
  /\ exists pending resume,
       handleColorChange exDressed "Deep Blue"
         = Await pending (generateColorVariation "shirt-on.png" "Deep Blue") resume
       /\ isLoading pending = true
       /\ currentColorInstruction pending = "Deep Blue"
       /\ outfitHistory pending = outfitHistory exDressed.
Proof.
  intros s.
  destruct (handleColorChange_spec exModel "Deep Blue") as (Hbase & _ & _ & _).
  destruct (handleColorChange_spec s "Deep Blue") as (_ & _ & _ & Hmissing).
  destruct (handleColorChange_spec exDressed "Deep Blue") as (_ & _ & _ & Hpresent).
  split; [exact (Hbase eq_refl)|].
  split; [reflexivity|]. split; [simpl; lia|].
  split.
  - apply (Hmissing
             (mkLayer (Some shirt)
                [(defaultKey, "shirt-on.png");
                 (compositeKey (first POSE_INSTRUCTIONS) "Neutral"
                    "Neutral studio backdrop" "Vibrant Red", "red.png");
                 (compositeKey "Side profile view" "Neutral"
                    "Neutral studio backdrop" "Vibrant Red", "side-red.png")]));
      try reflexivity; try discriminate. simpl; lia.
  - assert (Hpos : 0 < currentOutfitIndex exDressed) by (simpl; lia).
    assert (Hne : "Deep Blue" <> currentColorInstruction exDressed) by discriminate.
    assert (Hurl : "shirt-on.png" <> "") by discriminate.
    exact (proj2 (Hpresent (mkLayer (Some shirt) [(defaultKey, "shirt-on.png")])
                    eq_refl Hne Hpos eq_refl eq_refl eq_refl)
             "shirt-on.png" eq_refl Hurl).
Defined.

(** C10, as stated, fails: on a garment layer whose map has neither the
    requested colour nor an Original-colour entry for the current pose,
    emotion and background, a request made while a generation is in
    progress returns at the handler's guard and sets no error. *)
Lemma color_request_ignored_while_loading :
  0 < currentOutfitIndex exDressedLoading
  /\ (exists layer,
        outfitHistory exDressedLoading !! currentOutfitIndex exDressedLoading
          = Some layer
        /\ getProp (generatedImages layer)
             (requestedKey exDressedLoading (ColorChange "Deep Blue")) = None
        /\ getProp (generatedImages layer) (originalColorKey exDressedLoading) = None)
  /\ handleColorChange exDressedLoading "Deep Blue" = Return exDressedLoading
  /\ error exDressedLoading = None.
Proof.
  split; [simpl; lia|]. split; [|split; reflexivity].
  eexists. split; [reflexivity|]. split; reflexivity.
Qed.

(** The invariant above is about operations that run one at a time.  The
    resumption of a garment selection applies its updaters to whatever the
    state is when the service answers: resumed after [handleStartOver], it
    leaves a history of one garment layer with index 1. *)
Remark selection_resumed_after_startOver :
  match handleGarmentSelect exModel shirtFile shirt with
  | Await pending _ resume =>
      match resume (Resolved "shirt-on.png") (handleStartOver pending) with
      | Some s =>
          outfitHistory s = [mkLayer (Some shirt) [(defaultKey, "shirt-on.png")]]
          /\ currentOutfitIndex s = 1
      | None => False
      end
  | _ => False
  end.
Proof. split; reflexivity. Qed.

(** * Further properties of the App and of Canvas *)

(** ** Composite keys *)

Lemma append_underscore_inj (p p' rest rest' : string) :
  noUnderscore p = true -> noUnderscore p' = true ->
  p +:+ String "_" rest = p' +:+ String "_" rest' ->
  p = p' /\ rest = rest'.
Proof.
  revert p'. induction p as [|a p IH]; intros [|b p'] Hp Hp' Heq.
  - injection Heq as <-. auto.
  - rewrite append_cons in Heq. injection Heq as <- _. discriminate.
  - rewrite append_cons in Heq. injection Heq as -> _. discriminate.
  - rewrite !append_cons in Heq. injection Heq as <- Heq.
    simpl in Hp, Hp'. apply andb_prop in Hp as [_ Hp].
    apply andb_prop in Hp' as [_ Hp'].
    destruct (IH p' Hp Hp' Heq) as [-> ->]. auto.
Qed.

(** X1. Two combinations whose pose, emotion and background contain no
    underscore have the same composite key only when they are the same
    combination. *)
Theorem compositeKey_injective
    (pose emotion background color pose' emotion' background' color' : string) :
  noUnderscore pose = true -> noUnderscore emotion = true ->
  noUnderscore background = true ->
  noUnderscore pose' = true -> noUnderscore emotion' = true ->
  noUnderscore background' = true ->
  compositeKey pose emotion background color
    = compositeKey pose' emotion' background' color' ->
  pose = pose' /\ emotion = emotion' /\ background = background' /\ color = color'.
Proof.
  intros Hp He Hb Hp' He' Hb' Heq. unfold compositeKey in Heq.
  apply (append_underscore_inj _ _ _ _ Hp Hp') in Heq as [-> Heq].
  apply (append_underscore_inj _ _ _ _ He He') in Heq as [-> Heq].
  apply (append_underscore_inj _ _ _ _ Hb Hb') in Heq as [-> Heq].
  auto.
Qed.

Lemma compositeKey_injective_witness :
  noUnderscore "Side profile view" = true
  /\ noUnderscore "Happy" = true
  /\ noUnderscore "Lush green forest" = true
  /\ compositeKey "Side profile view" "Happy" "Lush green forest" "Deep Blue"
       = "Side profile view_Happy_Lush green forest_Deep Blue"
  /\ ("Side profile view" = "Side profile view" /\ "Happy" = "Happy"
       /\ "Lush green forest" = "Lush green forest" /\ "Deep Blue" = "Deep Blue").
Proof.
  refine (conj eq_refl (conj eq_refl (conj eq_refl (conj eq_refl _)))).
  exact (compositeKey_injective
           "Side profile view" "Happy" "Lush green forest" "Deep Blue"
           "Side profile view" "Happy" "Lush green forest" "Deep Blue"
           eq_refl eq_refl eq_refl eq_refl eq_refl eq_refl eq_refl).
Defined.

Lemma splitFirst_noUnderscore (key : string) : noUnderscore (splitFirst key) = true.
Proof.
  induction key as [|a key IH]; simpl; [reflexivity|].
  destruct (Ascii.eqb a "_") eqn:E; simpl; [reflexivity|].
  now rewrite E, IH.
Qed.

Lemma splitFirst_prefix (p rest : string) :
  noUnderscore p = true -> splitFirst (p +:+ String "_" rest) = p.
Proof.
  induction p as [|a p IH]; intros Hp; [reflexivity|].
  rewrite append_cons. simpl in *. apply andb_prop in Hp as [Ha Hp].
  apply negb_true_iff in Ha. rewrite Ha. now rewrite IH.
Qed.

Lemma splitFirst_compositeKey (pose emotion background color : string) :
  noUnderscore pose = true ->
  splitFirst (compositeKey pose emotion background color) = pose.
Proof. intros Hp. unfold compositeKey. now apply splitFirst_prefix. Qed.

(** ** availablePoseKeys *)

Lemma elem_of_List_filter (f : string -> bool) (l : list string) (x : string) :
  x ∈ List.filter f l <-> x ∈ l /\ f x = true.
Proof. rewrite !list_elem_of_In. apply filter_In. Qed.

Lemma elem_of_List_map (f : string -> string) (l : list string) (y : string) :
  y ∈ map f l <-> exists x, y = f x /\ x ∈ l.
Proof.
  rewrite list_elem_of_In, in_map_iff. split.
  - intros (x & <- & Hx). exists x. now rewrite list_elem_of_In.
  - intros (x & -> & Hx). exists x. now rewrite <- list_elem_of_In.
Qed.

Lemma NoDup_List_filter (f : string -> bool) (l : list string) :
  NoDup l -> NoDup (List.filter f l).
Proof.
  induction 1 as [|x l Hx Hl IH]; simpl; [constructor|].
  destruct (f x); [|exact IH].
  constructor; [|exact IH]. rewrite elem_of_List_filter. tauto.
Qed.

Lemma elem_of_uniqueInOrder (values : list string) (x : string) :
  x ∈ uniqueInOrder values <-> x ∈ values.
Proof.
  induction values as [|v values IH]; simpl; [reflexivity|].
  rewrite !elem_of_cons, elem_of_List_filter, IH.
  destruct (decide (x = v)) as [->|Hne]; [tauto|].
  apply String.eqb_neq in Hne. rewrite Hne. simpl. tauto.
Qed.

Lemma NoDup_uniqueInOrder (values : list string) : NoDup (uniqueInOrder values).
Proof.
  induction values as [|v values IH]; simpl; constructor.
  - rewrite elem_of_List_filter. intros [_ Hv].
    now rewrite String.eqb_refl in Hv.
  - now apply NoDup_List_filter.
Qed.

Lemma availablePoseKeys_noUnderscore (s : State) (pose : string) :
  pose ∈ availablePoseKeys s -> noUnderscore pose = true.
Proof.
  unfold availablePoseKeys.
  destruct (length (outfitHistory s) =? 0)%nat; [intros Hin; inversion Hin|].
  destruct (outfitHistory s !! currentOutfitIndex s); [|intros Hin; inversion Hin].
  rewrite elem_of_uniqueInOrder, elem_of_List_map.
  intros (key & -> & _). apply splitFirst_noUnderscore.
Qed.

Lemma availablePoseKeys_splitFirst (s : State) (layer : OutfitLayer) (key : string) :
  outfitHistory s !! currentOutfitIndex s = Some layer ->
  key ∈ objectKeys (generatedImages layer) ->
  splitFirst key ∈ availablePoseKeys s.
Proof.
  intros Hlayer Hkey. unfold availablePoseKeys.
  rewrite (lookup_Some_length_nonzero _ _ Hlayer), Hlayer.
  rewrite elem_of_uniqueInOrder. apply elem_of_List_map. eauto.
Qed.

(** X2. The poses offered by the arrows are pairwise distinct, none of
    them contains an underscore, each is the part before the first
    underscore of some key of the current layer, and there are none
    without a current layer. *)
Theorem availablePoseKeys_spec (s : State) :
  NoDup (availablePoseKeys s)
  /\ (forall pose, pose ∈ availablePoseKeys s ->
        noUnderscore pose = true
        /\ exists layer key,
             outfitHistory s !! currentOutfitIndex s = Some layer
             /\ key ∈ objectKeys (generatedImages layer)
             /\ pose = splitFirst key)
  /\ (outfitHistory s !! currentOutfitIndex s = None -> availablePoseKeys s = []).
Proof.
  unfold availablePoseKeys.
  destruct (length (outfitHistory s) =? 0)%nat eqn:Hlen.
  - split; [constructor|]. split; [intros pose Hin; inversion Hin | reflexivity].
  - destruct (outfitHistory s !! currentOutfitIndex s) as [layer|] eqn:Hlayer.
    + split; [apply NoDup_uniqueInOrder|]. split; [|discriminate].
      intros pose Hin. rewrite elem_of_uniqueInOrder in Hin.
      apply elem_of_List_map in Hin as (key & -> & Hkey).
      split; [apply splitFirst_noUnderscore|]. eauto.
    + split; [constructor|]. split; [intros pose Hin; inversion Hin | reflexivity].
Qed.

(** X3. The pose of every key of the current layer is offered by the
    arrows, provided that pose contains no underscore. *)
Theorem availablePoseKeys_complete
    (s : State) (layer : OutfitLayer) (pose emotion background color : string) :
  outfitHistory s !! currentOutfitIndex s = Some layer ->
  compositeKey pose emotion background color ∈ objectKeys (generatedImages layer) ->
  noUnderscore pose = true ->
  pose ∈ availablePoseKeys s.
Proof.
  intros Hlayer Hkey Hpose.
  rewrite <- (splitFirst_compositeKey pose emotion background color Hpose).
  eapply availablePoseKeys_splitFirst; eassumption.
Qed.

Lemma availablePoseKeys_complete_witness :
  outfitHistory exDressed !! currentOutfitIndex exDressed
    = Some (mkLayer (Some shirt) [(defaultKey, "shirt-on.png")])
  /\ first POSE_INSTRUCTIONS ∈ availablePoseKeys exDressed.
Proof.
  assert (Hlayer : outfitHistory exDressed !! currentOutfitIndex exDressed
                   = Some (mkLayer (Some shirt) [(defaultKey, "shirt-on.png")]))
    by reflexivity.
  split; [exact Hlayer|].
  apply (availablePoseKeys_complete exDressed _ _
           (first EMOTION_INSTRUCTIONS) (first BACKGROUND_INSTRUCTIONS)
           (first COLOR_INSTRUCTIONS) Hlayer).
  - simpl. apply list_elem_of_here.
  - reflexivity.
Defined.

(** ** The pose arrows *)

Lemma indexOf_range (array : list string) (value : string) :
  (indexOf array value = -1 \/
   0 <= indexOf array value < Z.of_nat (length array))%Z.
Proof.
  induction array as [|x array IH]; simpl; [left; reflexivity|].
  destruct (x =? value); [right; lia|].
  destruct (indexOf array value =? -1)%Z eqn:E; [left; reflexivity|].
  apply Z.eqb_neq in E. right. lia.
Qed.

Lemma indexOf_lookup (array : list string) (value : string) :
  (0 <= indexOf array value)%Z ->
  array !! Z.to_nat (indexOf array value) = Some value.
Proof.
  induction array as [|x array IH]; simpl; [lia|].
  destruct (x =? value) eqn:Hx.
  - apply String.eqb_eq in Hx. now subst.
  - destruct (indexOf array value =? -1)%Z eqn:E; [lia|].
    apply Z.eqb_neq in E. intros _.
    destruct (indexOf_range array value) as [?|Hr]; [contradiction|].
    replace (Z.to_nat (indexOf array value + 1))
      with (S (Z.to_nat (indexOf array value))) by lia.
    simpl. apply IH. lia.
Qed.

Lemma indexOf_absent (array : list string) (value : string) :
  value ∉ array -> indexOf array value = (-1)%Z.
Proof.
  induction array as [|x array IH]; simpl; [reflexivity|].
  rewrite not_elem_of_cons. intros [Hne Hnot].
  apply not_eq_sym, String.eqb_neq in Hne. rewrite Hne, (IH Hnot). reflexivity.
Qed.

Lemma indexOf_NoDup (array : list string) (n : nat) (value : string) :
  NoDup array -> array !! n = Some value -> indexOf array value = Z.of_nat n.
Proof.
  intros Hnd. revert n. induction Hnd as [|x array Hx _ IH]; intros n Hn;
    [discriminate|].
  destruct n as [|n]; simpl in *.
  - injection Hn as ->. now rewrite String.eqb_refl.
  - assert (Hne : x <> value).
    { intros ->. apply Hx. eapply list_elem_of_lookup_2. eassumption. }
    apply String.eqb_neq in Hne. rewrite Hne, (IH _ Hn).
    destruct (Z.of_nat n =? -1)%Z eqn:E; [apply Z.eqb_eq in E|]; lia.
Qed.

Lemma nextIndex_spec (i n : Z) :
  (0 <= i < n)%Z -> (1 < n)%Z ->
  (0 <= Z.rem (i + 1) n < n)%Z
  /\ Z.rem (i + 1) n <> i
  /\ Z.rem (Z.rem (i + 1) n - 1 + n) n = i.
Proof.
  intros Hi Hn. destruct (Z.eq_dec (i + 1)%Z n) as [E|E].
  - rewrite E, Z.rem_same by lia.
    replace (0 - 1 + n)%Z with i by lia. rewrite Z.rem_small by lia. lia.
  - rewrite (Z.rem_small (i + 1)) by lia.
    replace (i + 1 - 1 + n)%Z with (i + 1 * n)%Z by lia.
    rewrite Z.rem_mod_nonneg, Z.mod_add, Z.mod_small by lia. lia.
Qed.

Lemma prevIndex_spec (i n : Z) :
  (0 <= i < n)%Z -> (1 < n)%Z ->
  (0 <= Z.rem (i - 1 + n) n < n)%Z
  /\ Z.rem (i - 1 + n) n <> i
  /\ Z.rem (Z.rem (i - 1 + n) n + 1) n = i.
Proof.
  intros Hi Hn. destruct (Z.eq_dec i 0%Z) as [->|E].
  - replace (0 - 1 + n)%Z with (n - 1)%Z by lia.
    rewrite (Z.rem_small (n - 1)) by lia.
    replace (n - 1 + 1)%Z with n by lia. rewrite Z.rem_same by lia. lia.
  - replace (i - 1 + n)%Z with (i - 1 + 1 * n)%Z by lia.
    rewrite (Z.rem_mod_nonneg (i - 1 + 1 * n)), Z.mod_add, Z.mod_small by lia.
    replace (i - 1 + 1)%Z with i by lia. rewrite Z.rem_small by lia. lia.
Qed.

(** The index arithmetic of both arrows, once the guards are passed. *)
Lemma arrow_guards (loading : bool) (keys : list string) (current : string) :
  loading || (Z.of_nat (length keys) <=? 1)%Z = false ->
  (indexOf keys current =? -1)%Z = false ->
  loading = false
  /\ (1 < Z.of_nat (length keys))%Z
  /\ (0 <= indexOf keys current < Z.of_nat (length keys))%Z
  /\ current ∈ keys.
Proof.
  intros Hguard Hindex. apply orb_false_elim in Hguard as [-> Hlen].
  apply Z.leb_gt in Hlen. apply Z.eqb_neq in Hindex.
  destruct (indexOf_range keys current) as [?|Hr]; [contradiction|].
  repeat split; try lia.
  eapply list_elem_of_lookup_2. apply indexOf_lookup. lia.
Qed.

Lemma arrayAt_defined (array : list string) (index : Z) :
  (0 <= index < Z.of_nat (length array))%Z ->
  exists value, arrayAt array index = Some value
                /\ array !! Z.to_nat index = Some value.
Proof.
  intros Hi. unfold arrayAt.
  destruct (index <? 0)%Z eqn:E; [apply Z.ltb_lt in E; lia|].
  destruct (lookup_lt_is_Some_2 array (Z.to_nat index)) as [value Hv]; [lia|].
  eauto.
Qed.

(** X4. An arrow that calls [onSelectPose] passes an element of
    [availablePoseKeys], never [undefined]; it does so only when nothing
    is loading and the current pose is itself in the list; and when the
    list has no duplicates the pose passed differs from the current one. *)
Theorem pose_arrows_select_listed_pose
    (loading : bool) (keys : list string) (current : string)
    (instruction : option string) :
  handleNextPose loading keys current = SelectPose instruction
  \/ handlePreviousPose loading keys current = SelectPose instruction ->
  exists pose,
    instruction = Some pose
    /\ pose ∈ keys
    /\ loading = false
    /\ current ∈ keys
    /\ (NoDup keys -> pose <> current).
Proof.
  unfold handleNextPose, handlePreviousPose.
  destruct (loading || (Z.of_nat (length keys) <=? 1)%Z) eqn:Hguard;
    [intros [?|?]; discriminate|].
  destruct (indexOf keys current =? -1)%Z eqn:Hindex;
    [intros [?|?]; discriminate|].
  destruct (arrow_guards _ _ _ Hguard Hindex) as (-> & Hlen & Hr & Hcur).
  assert (Hfound : forall j,
            (0 <= j < Z.of_nat (length keys))%Z -> j <> indexOf keys current ->
            exists pose, arrayAt keys j = Some pose /\ pose ∈ keys
                         /\ (NoDup keys -> pose <> current)).
  { intros j Hj Hne. destruct (arrayAt_defined keys j Hj) as (pose & Hat & Hpose).
    exists pose. split; [exact Hat|]. split.
    - eapply list_elem_of_lookup_2. eassumption.
    - intros Hnd ->. apply (indexOf_NoDup _ _ _ Hnd) in Hpose. lia. }
  intros [Hcall | Hcall]; injection Hcall as <-.
  - destruct (nextIndex_spec _ _ Hr Hlen) as (Hj & Hne & _).
    destruct (Hfound _ Hj Hne) as (pose & -> & Hin & Hdiff). eauto 10.
  - destruct (prevIndex_spec _ _ Hr Hlen) as (Hj & Hne & _).
    destruct (Hfound _ Hj Hne) as (pose & -> & Hin & Hdiff). eauto 10.
Qed.

Lemma pose_arrows_select_listed_pose_witness :
  handleNextPose false ["Full frontal view, hands on hips"; "Side profile view"]
    "Side profile view"
    = SelectPose (Some "Full frontal view, hands on hips")
  /\ exists pose,
       Some "Full frontal view, hands on hips" = Some pose
       /\ pose <> "Side profile view".
Proof.
  split; [reflexivity|].
  destruct (pose_arrows_select_listed_pose false
              ["Full frontal view, hands on hips"; "Side profile view"]
              "Side profile view" (Some "Full frontal view, hands on hips")
              (or_introl eq_refl))
    as (pose & Hpose & _ & _ & _ & Hne).
  exists pose. split; [exact Hpose|]. apply Hne.
  repeat constructor; rewrite ?elem_of_cons, ?elem_of_nil; intuition discriminate.
Defined.

(** X5. On a list without duplicates the two arrows undo each other: the
    pose reached by one arrow is sent back to the starting pose by the
    other. *)
Theorem pose_arrows_round_trip
    (keys : list string) (current pose : string) :
  NoDup keys ->
  (handleNextPose false keys current = SelectPose (Some pose) ->
   handlePreviousPose false keys pose = SelectPose (Some current))
  /\ (handlePreviousPose false keys current = SelectPose (Some pose) ->
      handleNextPose false keys pose = SelectPose (Some current)).
Proof.
  intros Hnd. unfold handleNextPose, handlePreviousPose.
  destruct (false || (Z.of_nat (length keys) <=? 1)%Z) eqn:Hguard;
    [split; discriminate|].
  destruct (indexOf keys current =? -1)%Z eqn:Hindex; [split; discriminate|].
  destruct (arrow_guards _ _ _ Hguard Hindex) as (_ & Hlen & Hr & Hcur).
  pose proof (indexOf_lookup keys current ltac:(lia)) as Hat.
  assert (Hback : arrayAt keys (indexOf keys current) = Some current).
  { unfold arrayAt. destruct (indexOf keys current <? 0)%Z eqn:E;
      [apply Z.ltb_lt in E; lia | exact Hat]. }
  split; intros Hcall; injection Hcall as Hcall.
  - destruct (nextIndex_spec _ _ Hr Hlen) as (Hj & _ & Hundo).
    destruct (arrayAt_defined keys _ Hj) as (pose' & Hat' & Hpose).
    rewrite Hat' in Hcall. injection Hcall as ->.
    rewrite (indexOf_NoDup _ _ _ Hnd Hpose), Z2Nat.id by lia.
    destruct (Z.rem (indexOf keys current + 1) (Z.of_nat (length keys)) =? -1)%Z eqn:E;
      [apply Z.eqb_eq in E; lia|].
    now rewrite Hundo, Hback.
  - destruct (prevIndex_spec _ _ Hr Hlen) as (Hj & _ & Hundo).
    destruct (arrayAt_defined keys _ Hj) as (pose' & Hat' & Hpose).
    rewrite Hat' in Hcall. injection Hcall as ->.
    rewrite (indexOf_NoDup _ _ _ Hnd Hpose), Z2Nat.id by lia.
    destruct (Z.rem (indexOf keys current - 1 + Z.of_nat (length keys))
                (Z.of_nat (length keys)) =? -1)%Z eqn:E;
      [apply Z.eqb_eq in E; lia|].
    now rewrite Hundo, Hback.
Qed.

Lemma pose_arrows_round_trip_witness :
  NoDup ["a"; "b"; "c"]
  /\ handleNextPose false ["a"; "b"; "c"] "c" = SelectPose (Some "a")
  /\ handlePreviousPose false ["a"; "b"; "c"] "a" = SelectPose (Some "c").
Proof.
  assert (Hnd : NoDup ["a"; "b"; "c"]).
  { repeat constructor; rewrite ?elem_of_cons, ?elem_of_nil; intuition discriminate. }
  assert (Hnext : handleNextPose false ["a"; "b"; "c"] "c" = SelectPose (Some "a"))
    by reflexivity.
  exact (conj Hnd (conj Hnext
           (proj1 (pose_arrows_round_trip ["a"; "b"; "c"] "c" "a" Hnd) Hnext))).
Defined.

(** X6. When the current pose contains an underscore, both arrows do
    nothing: the list holds only the parts of keys before their first
    underscore, so the current pose is not found in it. *)
Theorem pose_arrows_dead_on_underscore (s : State) :
  noUnderscore (currentPoseInstruction s) = false ->
  handleNextPose (isLoading s) (availablePoseKeys s) (currentPoseInstruction s) = NoCall
  /\ handlePreviousPose (isLoading s) (availablePoseKeys s) (currentPoseInstruction s)
     = NoCall.
Proof.
  intros Hpose.
  assert (Habsent : indexOf (availablePoseKeys s) (currentPoseInstruction s) = (-1)%Z).
  { apply indexOf_absent. intros Hin.
    apply availablePoseKeys_noUnderscore in Hin. congruence. }
  unfold handleNextPose, handlePreviousPose. rewrite Habsent.
  destruct (isLoading s || _); split; reflexivity.
Qed.

Lemma pose_arrows_dead_on_underscore_witness :
  noUnderscore (currentPoseInstruction exCustomPose) = false
  /\ availablePoseKeys exCustomPose = ["Full frontal view, hands on hips"; "Side"]
  /\ handleNextPose (isLoading exCustomPose) (availablePoseKeys exCustomPose)
       (currentPoseInstruction exCustomPose) = NoCall.
Proof.
  refine (conj eq_refl (conj eq_refl _)).
  exact (proj1 (pose_arrows_dead_on_underscore exCustomPose eq_refl)).
Defined.

(** ** What one completed operation does *)

Section Cases.
Context `{Imports}.

(** The five ways a variation handler can complete. *)
Lemma adjust_cases (s s' : State) (v : Variation) (result : ApiResult)
    (calls : list ApiCall) :
  run result (adjust s v) = Finished s' calls ->
  (s' = s /\ calls = [])
  \/ (exists layer,
        outfitHistory s !! currentOutfitIndex s = Some layer
        /\ cached layer (requestedKey s v) = true
        /\ isLoading s = false
        /\ s' = setCurrent (axisOf v) (requested v) s
        /\ calls = [])
  \/ (isLoading s = false
      /\ s' = setError (Some missingOriginalMessage) s
      /\ calls = [])
  \/ (exists layer newImageUrl base,
        outfitHistory s !! currentOutfitIndex s = Some layer
        /\ isLoading s = false
        /\ cached layer (requestedKey s v) = false
        /\ baseImage s layer v = Some base
        /\ truthy base = true
        /\ result = Resolved newImageUrl
        /\ calls = [serviceCall v base]
        /\ s' = finallyBlock
                  (setOutfitHistory
                     (<[currentOutfitIndex s :=
                          mkLayer (garment layer)
                            (setProp (generatedImages layer) (requestedKey s v)
                               newImageUrl)]>
                        (outfitHistory s))
                     (setCurrent (axisOf v) (requested v) (setError None s))))
  \/ (exists err call,
        isLoading s = false
        /\ result = Rejected err
        /\ calls = [call]
        /\ s' = finallyBlock
                  (setError (Some (getFriendlyErrorMessage err (failureContext v))) s)).
Proof.
  intros Hrun.
  destruct (isLoading s) eqn:Hload.
  { left. destruct v; unfold_handlers Hrun; rewrite Hload in Hrun;
      injection Hrun as <- <-; auto. }
  destruct v; unfold_handlers Hrun; rewrite Hload in Hrun;
    destruct (outfitHistory s !! currentOutfitIndex s) as [layer|] eqn:Hlayer;
    split_guards Hrun; try discriminate;
    try (simpl in Hrun; injection Hrun as <- <-;
         first [ left; split; reflexivity
               | right; left; exists layer; repeat split; assumption
               | right; right; left; repeat split ]);
    destruct result as [newImageUrl | err]; unfold_tail Hrun; simpl in Hrun;
    try rewrite Hlayer in Hrun; injection Hrun as <- <-;
    first [ right; right; right; left; eexists layer, newImageUrl, _;
            repeat split; eassumption
          | right; right; right; right; eexists err, _; repeat split ].
Qed.

(** The four ways a garment selection can complete. *)
Lemma handleGarmentSelect_cases (s s' : State) (garmentFile : File.t)
    (garmentInfo : WardrobeItem.t) (result : ApiResult) (calls : list ApiCall) :
  run result (handleGarmentSelect s garmentFile garmentInfo) = Finished s' calls ->
  (s' = s /\ calls = [])
  \/ (isNextLayerOf garmentInfo (outfitHistory s !! (currentOutfitIndex s + 1)) = true
      /\ truthyOpt (displayImageUrl s) = true
      /\ isLoading s = false
      /\ s' = resetStateForNewGarment
                (setCurrentOutfitIndex (currentOutfitIndex s + 1) s)
      /\ calls = [])
  \/ (exists displayImage newImageUrl,
        displayImageUrl s = Some displayImage
        /\ truthy displayImage = true
        /\ isLoading s = false
        /\ result = Resolved newImageUrl
        /\ calls = [generateVirtualTryOnImage displayImage garmentFile]
        /\ s' = finallyBlock
                  (setWardrobe (addToWardrobe garmentInfo (wardrobe s))
                     (setCurrentOutfitIndex (currentOutfitIndex s + 1)
                        (setOutfitHistory
                           (take (currentOutfitIndex s + 1) (outfitHistory s)
                              ++ [mkLayer (Some garmentInfo) [(defaultKey, newImageUrl)]])
                           (resetStateForNewGarment (setError None s))))))
  \/ (exists err call,
        isLoading s = false
        /\ truthyOpt (displayImageUrl s) = true
        /\ result = Rejected err
        /\ calls = [call]
        /\ s' = finallyBlock
                  (setError (Some (getFriendlyErrorMessage err "Failed to apply garment"))
                     (resetStateForNewGarment s))).
Proof.
  intros Hrun. unfold handleGarmentSelect in Hrun.
  destruct (displayImageUrl s) as [displayImage|] eqn:Hd;
    [| injection Hrun as <- <-; auto].
  destruct (truthy displayImage) eqn:Htruthy;
    [| injection Hrun as <- <-; auto].
  destruct (isLoading s) eqn:Hload; [injection Hrun as <- <-; auto|].
  simpl in Hrun.
  destruct (isNextLayerOf garmentInfo _) eqn:Hnext.
  - injection Hrun as <- <-. right. left. repeat split; assumption.
  - destruct result as [newImageUrl | err]; injection Hrun as <- <-.
    + right. right. left. exists displayImage, newImageUrl.
      repeat split; assumption.
    + right. right. right. eexists err, _. repeat split; assumption.
Qed.

End Cases.

(** ** Invariants of the quiescent states *)

Section Quiescent.
Context `{Imports}.

Lemma primaryKey_setCurrent (s : State) (v : Variation) :
  primaryKey (setCurrent (axisOf v) (requested v) s) = requestedKey s v.
Proof. destruct v; reflexivity. Qed.

Lemma getProp_elem_of_objectKeys (images : JsObject) (key value : string) :
  getProp images key = Some value -> key ∈ objectKeys images.
Proof.
  induction images as [|[k v] images IH]; simpl; [discriminate|].
  destruct (k =? key) eqn:E.
  - apply String.eqb_eq in E. subst. intros _. apply list_elem_of_here.
  - intros Hget. apply list_elem_of_further. now apply IH.
Qed.

Lemma getProp_setProp_is_Some (images : JsObject) (key key' value : string) :
  is_Some (getProp images key') ->
  is_Some (getProp (setProp images key value) key').
Proof.
  intros Hsome. destruct (decide (key' = key)) as [->|Hne].
  - rewrite getProp_setProp_eq. eauto.
  - now rewrite getProp_setProp_ne.
Qed.

(** The keys of an object only grow under assignment, and keep their
    order. *)
Lemma objectKeys_setProp (images : JsObject) (key value : string) :
  objectKeys images `prefix_of` objectKeys (setProp images key value).
Proof.
  induction images as [|[k v] images IH]; simpl.
  - apply prefix_nil.
  - destruct (k =? key); simpl; [reflexivity|]. now apply prefix_cons.
Qed.

Lemma reachable_not_loading (s : State) :
  reachable s -> isLoading s = false /\ loadingMessage s = "".
Proof.
  induction 1 as [|s op result s' calls _ [IHl IHm] Hrun]; [split; reflexivity|].
  destruct op as [url | | garmentFile garmentInfo | | v]; simpl in Hrun.
  - injection Hrun as <- _. split; assumption.
  - injection Hrun as <- _. split; reflexivity.
  - apply handleGarmentSelect_cases in Hrun
      as [[-> _] | [(_ & _ & _ & -> & _)
         | [(? & ? & _ & _ & _ & _ & _ & ->) | (? & ? & _ & _ & _ & _ & ->)]]];
      split; solve [assumption | reflexivity].
  - injection Hrun as <- _. unfold handleRemoveLastGarment.
    destruct (0 <? currentOutfitIndex s)%nat; split; assumption.
  - apply adjust_cases in Hrun
      as [[-> _] | [(? & _ & _ & _ & -> & _) | [(_ & -> & _)
         | [(? & ? & ? & _ & _ & _ & _ & _ & _ & _ & ->)
           | (? & ? & _ & _ & _ & ->)]]]];
      try (split; solve [assumption | reflexivity]).
    destruct v; split; assumption.
Qed.

Lemma exactKeyInvariant_defaults (s s' : State) :
  (forall i layer, outfitHistory s' !! i = Some layer ->
     is_Some (getProp (generatedImages layer) defaultKey)) ->
  primaryKey s' = defaultKey ->
  exactKeyInvariant s'.
Proof.
  intros Hall Hkey. split; [exact Hall|].
  intros layer Hlayer. rewrite Hkey. eapply Hall. eassumption.
Qed.

Lemma reachable_exactKeyInvariant (s : State) :
  reachable s -> exactKeyInvariant s.
Proof.
  induction 1 as [|s op result s' calls _ [IHall IHcur] Hrun].
  { split; intros; discriminate. }
  destruct op as [url | | garmentFile garmentInfo | | v]; simpl in Hrun.
  - (* handleModelFinalized *)
    injection Hrun as <- _. apply (exactKeyInvariant_defaults s); [|reflexivity].
    intros [|i] layer Hi; [|discriminate]. injection Hi as <-. simpl.
    rewrite ?String.eqb_refl. eauto.
  - (* handleStartOver *)
    injection Hrun as <- _. split; intros; discriminate.
  - (* handleGarmentSelect *)
    apply handleGarmentSelect_cases in Hrun
      as [[-> _] | [(_ & _ & _ & -> & _)
         | [(image & url & _ & _ & _ & _ & _ & ->) | (? & ? & _ & _ & _ & _ & ->)]]].
    + split; assumption.
    + apply (exactKeyInvariant_defaults s); [exact IHall | reflexivity].
    + apply (exactKeyInvariant_defaults s); [|reflexivity]. simpl.
      intros i layer Hi. apply lookup_app_Some in Hi as [Hi | [_ Hi]].
      * apply lookup_take_Some in Hi as [Hi _]. eapply IHall. eassumption.
      * destruct (i - _) as [|n]; [|discriminate]. injection Hi as <-. simpl.
        rewrite ?String.eqb_refl. eauto.
    + apply (exactKeyInvariant_defaults s); [exact IHall | reflexivity].
  - (* handleRemoveLastGarment *)
    injection Hrun as <- _. unfold handleRemoveLastGarment.
    destruct (0 <? currentOutfitIndex s)%nat; [|split; assumption].
    apply (exactKeyInvariant_defaults s); [exact IHall | reflexivity].
  - (* the variation handlers *)
    apply adjust_cases in Hrun
      as [[-> _] | [(layer & Hlayer & Hcached & _ & -> & _) | [(_ & -> & _)
         | [(layer & url & base & Hlayer & _ & _ & _ & _ & _ & _ & ->)
           | (? & ? & _ & _ & _ & ->)]]]].
    + split; assumption.
    + split.
      * destruct v; exact IHall.
      * intros layer' Hlayer'. rewrite primaryKey_setCurrent.
        assert (layer' = layer) as ->
          by (destruct v; simpl in Hlayer'; congruence).
        unfold cached in Hcached.
        destruct (getProp (generatedImages layer) (requestedKey s v));
          [eauto | discriminate].
    + split; assumption.
    + assert (Hidx : currentOutfitIndex s < length (outfitHistory s))
        by (eapply lookup_lt_Some; eassumption).
      split.
      * intros i layer' Hi.
        assert (Hi' : <[currentOutfitIndex s :=
                          mkLayer (garment layer)
                            (setProp (generatedImages layer) (requestedKey s v) url)]>
                        (outfitHistory s) !! i = Some layer')
          by (destruct v; exact Hi).
        destruct (decide (i = currentOutfitIndex s)) as [->|Hne].
        -- rewrite list_lookup_insert_eq in Hi' by assumption.
           injection Hi' as <-. simpl. apply getProp_setProp_is_Some.
           eapply IHall. eassumption.
        -- rewrite list_lookup_insert_ne in Hi' by congruence.
           eapply IHall. eassumption.
      * intros layer' Hlayer'.
        assert (Hi' : <[currentOutfitIndex s :=
                          mkLayer (garment layer)
                            (setProp (generatedImages layer) (requestedKey s v) url)]>
                        (outfitHistory s) !! currentOutfitIndex s = Some layer')
          by (destruct v; exact Hlayer').
        rewrite list_lookup_insert_eq in Hi' by assumption. injection Hi' as <-.
        assert (primaryKey
                  (finallyBlock
                     (setOutfitHistory
                        (<[currentOutfitIndex s :=
                             mkLayer (garment layer)
                               (setProp (generatedImages layer) (requestedKey s v) url)]>
                           (outfitHistory s))
                        (setCurrent (axisOf v) (requested v) (setError None s))))
                = requestedKey s v) as -> by (destruct v; reflexivity).
        simpl. rewrite getProp_setProp_eq. eauto.
    + split; assumption.
Qed.

End Quiescent.

Section ReachableStates.
Context `{Imports}.

Lemma reachable_current_layer (s : State) :
  reachable s -> outfitHistory s <> [] ->
  exists layer, outfitHistory s !! currentOutfitIndex s = Some layer.
Proof.
  intros Hreach Hne.
  apply reachable_inductiveInvariant in Hreach as ((_ & Hrange & _) & _).
  apply lookup_lt_is_Some. now apply Hrange.
Qed.

(** When the colour requests come from the menu, the current colour is
    always one of the menu, so no key the App reads names an inherited
    property. *)
Lemma reachableVia_color (s : State) :
  reachableVia colorsFromMenu s -> colorFromMenu (currentColorInstruction s) = true.
Proof.
  induction 1 as [|s op result s' calls _ IH Hmenu Hrun]; [reflexivity|].
  destruct op as [url | | garmentFile garmentInfo | | v]; simpl in Hrun.
  - injection Hrun as <- _. reflexivity.
  - injection Hrun as <- _. reflexivity.
  - apply handleGarmentSelect_cases in Hrun
      as [[-> _] | [(_ & _ & _ & -> & _)
         | [(? & ? & _ & _ & _ & _ & _ & ->) | (? & ? & _ & _ & _ & _ & ->)]]];
      solve [exact IH | reflexivity].
  - injection Hrun as <- _. unfold handleRemoveLastGarment.
    destruct (0 <? currentOutfitIndex s)%nat; [reflexivity | exact IH].
  - apply adjust_cases in Hrun
      as [[-> _] | [(? & _ & _ & _ & -> & _) | [(_ & -> & _)
         | [(? & ? & ? & _ & _ & _ & _ & _ & _ & _ & ->)
           | (? & ? & _ & _ & _ & ->)]]]];
      try exact IH; destruct v; simpl in *; assumption.
Qed.

Lemma reachableVia_own_key (s : State) :
  reachableVia colorsFromMenu s -> inheritedProperty (primaryKey s) = false.
Proof.
  intros Hreach. apply colorFromMenu_not_inherited.
  now apply reachableVia_color.
Qed.

(** X7. Take a run of the App in which Start Over, the finalization of a
    model and the removal of the last garment are never invoked while a
    request is pending, and colours are requested from the colour menu;
    the other handlers may be invoked at any time.  Whenever no request is
    pending, the composite key of the current four instructions names no
    inherited property and the current layer has an entry under it; when
    the URL of that entry is non-empty it is the displayed image, so no
    fallback is used. *)
Theorem reachable_exact_entry (s : State) (layer : OutfitLayer) :
  orderly colorsFromMenu s [] ->
  outfitHistory s !! currentOutfitIndex s = Some layer ->
  inheritedProperty (primaryKey s) = false
  /\ exists url,
       getProp (generatedImages layer) (primaryKey s) = Some url
       /\ (url <> "" -> displayImageUrl s = Some url).
Proof.
  intros Hmenu Hlayer. apply orderly_quiescent in Hmenu.
  split; [now apply reachableVia_own_key|].
  pose proof (reachableVia_reachable _ s Hmenu) as Hreach.
  destruct (reachable_exactKeyInvariant s Hreach) as [_ Hcur].
  destruct (Hcur _ Hlayer) as [url Hurl]. exists url. split; [exact Hurl|].
  intros Hne. apply truthy_true_iff in Hne.
  unfold displayImageUrl, resolveImage.
  rewrite (lookup_Some_length_nonzero _ _ Hlayer), Hlayer, Hurl. simpl.
  now rewrite Hne.
Qed.

(** X8. Take a run of the App in which Start Over, the finalization of a
    model and the removal of the last garment are never invoked while a
    request is pending, and colours are requested from the colour menu.
    Whenever no request is pending and there is a history, a current pose
    without underscore is among the poses offered by the arrows. *)
Theorem reachable_pose_offered (s : State) :
  orderly colorsFromMenu s [] ->
  outfitHistory s <> [] ->
  noUnderscore (currentPoseInstruction s) = true ->
  currentPoseInstruction s ∈ availablePoseKeys s.
Proof.
  intros Hmenu Hne Hpose. apply orderly_quiescent in Hmenu.
  pose proof (reachableVia_reachable _ s Hmenu) as Hreach.
  destruct (reachable_current_layer s Hreach Hne) as [layer Hlayer].
  destruct (reachable_exactKeyInvariant s Hreach) as [_ Hcur].
  destruct (Hcur _ Hlayer) as [url Hurl].
  apply getProp_elem_of_objectKeys in Hurl.
  rewrite <- (splitFirst_compositeKey (currentPoseInstruction s)
                (currentEmotionInstruction s) (currentBackgroundInstruction s)
                (currentColorInstruction s) Hpose).
  eapply availablePoseKeys_splitFirst; eassumption.
Qed.

(** X9. Every operation that has completed leaves the App idle: in every
    reachable state [isLoading] is false and the loading message is
    empty. *)
Theorem reachable_idle (s : State) :
  reachable s -> isLoading s = false /\ loadingMessage s = "".
Proof. apply reachable_not_loading. Qed.

Lemma reachable_model_history (s : State) :
  reachable s -> (modelImageUrl s = None <-> outfitHistory s = []).
Proof.
  intros Hreach. induction Hreach as [|s op result s' calls Hreach IH Hrun];
    [split; reflexivity|].
  pose proof (reachable_inductiveInvariant s Hreach) as Hinv.
  destruct op as [url | | garmentFile garmentInfo | | v]; simpl in Hrun.
  - injection Hrun as <- _. split; discriminate.
  - injection Hrun as <- _. split; reflexivity.
  - apply handleGarmentSelect_cases in Hrun
      as [[-> _] | [(_ & _ & _ & -> & _)
         | [(image & url & Hd & _ & _ & _ & _ & ->) | (? & ? & _ & _ & _ & _ & ->)]]];
      try exact IH.
    simpl. pose proof (displayImageUrl_needs_history _ _ Hinv Hd) as Hne.
    split.
    + intros Hnone. apply IH in Hnone. contradiction.
    + intros Happ. destruct (take _ _); discriminate.
  - injection Hrun as <- _. unfold handleRemoveLastGarment.
    destruct (0 <? currentOutfitIndex s)%nat; exact IH.
  - apply adjust_cases in Hrun
      as [[-> _] | [(? & _ & _ & _ & -> & _) | [(_ & -> & _)
         | [(layer & url & base & Hlayer & _ & _ & _ & _ & _ & _ & ->)
           | (? & ? & _ & _ & _ & ->)]]]];
      try exact IH; try (destruct v; exact IH).
    assert (Hne : outfitHistory s <> [])
      by (intros Hnil; rewrite Hnil in Hlayer; discriminate).
    assert (modelImageUrl
              (finallyBlock
                 (setOutfitHistory
                    (<[currentOutfitIndex s :=
                         mkLayer (garment layer)
                           (setProp (generatedImages layer) (requestedKey s v) url)]>
                       (outfitHistory s))
                    (setCurrent (axisOf v) (requested v) (setError None s))))
            = modelImageUrl s) as -> by (destruct v; reflexivity).
    assert (outfitHistory
              (finallyBlock
                 (setOutfitHistory
                    (<[currentOutfitIndex s :=
                         mkLayer (garment layer)
                           (setProp (generatedImages layer) (requestedKey s v) url)]>
                       (outfitHistory s))
                    (setCurrent (axisOf v) (requested v) (setError None s))))
            = <[currentOutfitIndex s :=
                  mkLayer (garment layer)
                    (setProp (generatedImages layer) (requestedKey s v) url)]>
                (outfitHistory s)) as -> by (destruct v; reflexivity).
    split.
    + intros Hnone. apply IH in Hnone. contradiction.
    + intros Hnil. apply (f_equal length) in Hnil. rewrite length_insert in Hnil.
      destruct (outfitHistory s); [congruence | discriminate].
Qed.

(** X10. Take a run of the App in which Start Over, the finalization of a
    model and the removal of the last garment are never invoked while a
    request is pending.  Whenever no request is pending, there is a model
    image exactly when there is a history: [modelImageUrl] is null if and
    only if [outfitHistory] is empty. *)
Theorem reachable_model_iff_history (s : State) :
  orderly everyOp s [] -> (modelImageUrl s = None <-> outfitHistory s = []).
Proof.
  intros Hrun. apply reachable_model_history.
  eapply reachableVia_reachable, orderly_quiescent, Hrun.
Qed.

End ReachableStates.

Lemma reachable_exact_entry_witness :
  orderly colorsFromMenu exDressed []
  /\ outfitHistory exDressed !! currentOutfitIndex exDressed
       = Some (mkLayer (Some shirt) [(defaultKey, "shirt-on.png")])
  /\ exists url,
       getProp [(defaultKey, "shirt-on.png")] (primaryKey exDressed) = Some url
       /\ (url <> "" -> displayImageUrl exDressed = Some url).
Proof.
  pose (Hrun := exDressed_orderly colorsFromMenu eq_refl eq_refl).
  refine (conj Hrun (conj eq_refl _)).
  exact (proj2 (reachable_exact_entry exDressed _ Hrun eq_refl)).
Defined.

Lemma reachable_pose_offered_witness :
  orderly colorsFromMenu exDressed []
  /\ outfitHistory exDressed <> []
  /\ noUnderscore (currentPoseInstruction exDressed) = true
  /\ currentPoseInstruction exDressed ∈ availablePoseKeys exDressed.
Proof.
  assert (Hne : outfitHistory exDressed <> []) by discriminate.
  pose (Hrun := exDressed_orderly colorsFromMenu eq_refl eq_refl).
  refine (conj Hrun (conj Hne (conj eq_refl _))).
  exact (reachable_pose_offered exDressed Hrun Hne eq_refl).
Defined.

Lemma reachable_idle_witness :
  reachable exDressed /\ isLoading exDressed = false.
Proof.
  exact (conj exDressed_reachable (proj1 (reachable_idle _ exDressed_reachable))).
Defined.

Lemma reachable_model_iff_history_witness :
  orderly everyOp exDressed []
  /\ (modelImageUrl exDressed = None <-> outfitHistory exDressed = []).
Proof.
  pose (Hrun := exDressed_orderly everyOp eq_refl eq_refl).
  exact (conj Hrun (reachable_model_iff_history _ Hrun)).
Defined.


(** ** What completed operations leave behind *)

Section Completion.
Context `{Imports}.

(** X11. If the try-on call of [handleGarmentSelect] throws, the history,
    the index and the wardrobe are as before, the error is the friendly
    message and nothing is loading; the four instructions are not
    restored: they are the defaults set before the call. *)
Theorem handleGarmentSelect_failure
    (s s' : State) (garmentFile : File.t) (garmentInfo : WardrobeItem.t)
    (err : Thrown) (call : ApiCall) :
  run (Rejected err) (handleGarmentSelect s garmentFile garmentInfo)
    = Finished s' [call] ->
  outfitHistory s' = outfitHistory s
  /\ currentOutfitIndex s' = currentOutfitIndex s
  /\ wardrobe s' = wardrobe s
  /\ error s' = Some (getFriendlyErrorMessage err "Failed to apply garment")
  /\ isLoading s' = false
  /\ currentPoseInstruction s' = first POSE_INSTRUCTIONS
  /\ currentEmotionInstruction s' = first EMOTION_INSTRUCTIONS
  /\ currentBackgroundInstruction s' = first BACKGROUND_INSTRUCTIONS
  /\ currentColorInstruction s' = first COLOR_INSTRUCTIONS.
Proof.
  intros Hrun.
  apply handleGarmentSelect_cases in Hrun
    as [[_ ?] | [(_ & _ & _ & _ & ?)
       | [(? & ? & _ & _ & _ & ? & _) | (err' & ? & _ & _ & Herr & _ & ->)]]];
    try discriminate.
  injection Herr as <-. repeat split.
Qed.

(** X12. After a successful variation that returned a non-empty URL the
    displayed image is that URL. *)
Theorem variation_success_displayed
    (s s' : State) (v : Variation) (newImageUrl : string) (call : ApiCall) :
  run (Resolved newImageUrl) (adjust s v) = Finished s' [call] ->
  newImageUrl <> "" ->
  displayImageUrl s' = Some newImageUrl.
Proof.
  intros Hrun Hne. apply truthy_true_iff in Hne.
  destruct (variation_success_assign _ _ _ _ _ Hrun) as (layer & Hlayer & _ & ->).
  assert (Hidx : currentOutfitIndex s < length (outfitHistory s))
    by (eapply lookup_lt_Some; eassumption).
  unfold displayImageUrl.
  destruct v; simpl; rewrite length_insert;
    rewrite (lookup_Some_length_nonzero _ _ Hlayer);
    rewrite list_lookup_insert_eq by assumption;
    unfold resolveImage, primaryKey; simpl;
    unfold requestedKey; simpl;
    rewrite getProp_setProp_eq; simpl; now rewrite Hne.
Qed.


(** X14. An image generated with a non-empty URL is served from the cache
    afterwards: if the instruction of that axis is switched away and the
    same request is made again, the handler returns to the state reached
    after the generation without calling the service. *)
Theorem generated_variation_served_from_cache
    (s s' : State) (v : Variation) (newImageUrl : string) (call : ApiCall)
    (other : string) :
  run (Resolved newImageUrl) (adjust s v) = Finished s' [call] ->
  newImageUrl <> "" ->
  other <> requested v ->
  adjust (setCurrent (axisOf v) other s') v = Return s'.
Proof.
  intros Hrun Hne Hother. apply truthy_true_iff in Hne.
  apply not_eq_sym, String.eqb_neq in Hother.
  destruct v; simpl in Hother; unfold_handlers Hrun;
    destruct (outfitHistory s !! currentOutfitIndex s) as [layer|] eqn:Hlayer;
    split_guards Hrun; try discriminate;
    unfold_tail Hrun; simpl in Hrun; rewrite Hlayer in Hrun;
    injection Hrun as <- _;
    match goal with
    | Hg : _ || _ = false |- _ =>
        repeat (apply orb_false_elim in Hg as [Hg ?])
    end;
    simpl;
    unfold handlePoseSelect, handleEmotionSelect, handleBackgroundChange,
      handleBackgroundUpload, handleColorChange; simpl;
    rewrite length_insert,
      ?Hother, ?orb_false_l, ?orb_false_r;
    repeat match goal with
           | Hx : _ = false |- _ => rewrite Hx
           end; simpl;
    (rewrite list_lookup_insert_eq by (eapply lookup_lt_Some; eassumption));
    unfold cached; simpl; rewrite getProp_setProp_eq; simpl; rewrite Hne;
    reflexivity.
Qed.

End Completion.

Lemma handleGarmentSelect_failure_witness :
  let s' := after exModel (OpGarmentSelect shirtFile shirt) (Rejected "quota") in
  run (Rejected "quota") (handleGarmentSelect exModel shirtFile shirt)
    = Finished s' [generateVirtualTryOnImage "model.png" shirtFile]
  /\ outfitHistory s' = outfitHistory exModel
  /\ error s' = Some "Failed to apply garment: quota".
Proof.
  intros s'.
  assert (Hrun : run (Rejected "quota") (handleGarmentSelect exModel shirtFile shirt)
                 = Finished s' [generateVirtualTryOnImage "model.png" shirtFile])
    by reflexivity.
  destruct (handleGarmentSelect_failure _ _ _ _ _ _ Hrun) as (Hh & _ & _ & He & _).
  exact (conj Hrun (conj Hh He)).
Defined.

Lemma variation_success_displayed_witness :
  let v := PoseSelect "Side profile view" in
  let s' := after exDressed (OpAdjust v) (Resolved "side.png") in
  run (Resolved "side.png") (adjust exDressed v)
    = Finished s' [generatePoseVariation "shirt-on.png" "Side profile view"]
  /\ "side.png" <> ""
  /\ displayImageUrl s' = Some "side.png".
Proof.
  intros v s'.
  assert (Hrun : run (Resolved "side.png") (adjust exDressed v)
                 = Finished s' [generatePoseVariation "shirt-on.png" "Side profile view"])
    by reflexivity.
  assert (Hne : "side.png" <> "") by discriminate.
  exact (conj Hrun (conj Hne (variation_success_displayed _ _ _ _ _ Hrun Hne))).
Defined.


Lemma generated_variation_served_from_cache_witness :
  let v := ColorChange "Deep Blue" in
  let s' := after exDressed (OpAdjust v) (Resolved "blue.png") in
  run (Resolved "blue.png") (adjust exDressed v)
    = Finished s' [generateColorVariation "shirt-on.png" "Deep Blue"]
  /\ "blue.png" <> ""
  /\ "Original" <> requested v
  /\ adjust (setCurrent Color "Original" s') v = Return s'.
Proof.
  intros v s'.
  assert (Hrun : run (Resolved "blue.png") (adjust exDressed v)
                 = Finished s' [generateColorVariation "shirt-on.png" "Deep Blue"])
    by reflexivity.
  assert (Hne : "blue.png" <> "") by discriminate.
  assert (Hother : "Original" <> requested v) by discriminate.
  exact (conj Hrun (conj Hne (conj Hother
           (generated_variation_served_from_cache _ _ _ _ _ _ Hrun Hne Hother)))).
Defined.

(** ** The cache only grows *)

Section CacheGrowth.
Context `{Imports}.

(** X15. A completed variation handler never drops a layer, a key or a
    garment: the history keeps its length, and every layer keeps its
    garment, its keys in their order (new keys come last) and every
    entry whose URL is non-empty. *)
Theorem adjust_keeps_cache
    (s s' : State) (v : Variation) (result : ApiResult) (calls : list ApiCall) :
  run result (adjust s v) = Finished s' calls ->
  length (outfitHistory s') = length (outfitHistory s)
  /\ forall i layer,
       outfitHistory s !! i = Some layer ->
       exists layer',
         outfitHistory s' !! i = Some layer'
         /\ garment layer' = garment layer
         /\ objectKeys (generatedImages layer)
              `prefix_of` objectKeys (generatedImages layer')
         /\ (forall key url,
               getProp (generatedImages layer) key = Some url -> url <> "" ->
               getProp (generatedImages layer') key = Some url).
Proof.
  intros Hrun.
  assert (Hsame : outfitHistory s' = outfitHistory s ->
            length (outfitHistory s') = length (outfitHistory s)
            /\ forall i layer,
                 outfitHistory s !! i = Some layer ->
                 exists layer',
                   outfitHistory s' !! i = Some layer'
                   /\ garment layer' = garment layer
                   /\ objectKeys (generatedImages layer)
                        `prefix_of` objectKeys (generatedImages layer')
                   /\ (forall key url,
                         getProp (generatedImages layer) key = Some url -> url <> "" ->
                         getProp (generatedImages layer') key = Some url)).
  { intros ->. split; [reflexivity|]. intros i layer Hi. exists layer.
    repeat split; auto. }
  apply adjust_cases in Hrun
    as [[-> _] | [(? & _ & _ & _ & -> & _) | [(_ & -> & _)
       | [(layer & url & base & Hlayer & _ & Hcached & _ & _ & _ & _ & ->)
         | (? & ? & _ & _ & _ & ->)]]]];
    try (apply Hsame; reflexivity); try (apply Hsame; destruct v; reflexivity).
  clear Hsame.
  assert (Hhist : outfitHistory
            (finallyBlock
               (setOutfitHistory
                  (<[currentOutfitIndex s :=
                       mkLayer (garment layer)
                         (setProp (generatedImages layer) (requestedKey s v) url)]>
                     (outfitHistory s))
                  (setCurrent (axisOf v) (requested v) (setError None s))))
          = <[currentOutfitIndex s :=
                mkLayer (garment layer)
                  (setProp (generatedImages layer) (requestedKey s v) url)]>
              (outfitHistory s)) by (destruct v; reflexivity).
  rewrite Hhist. split; [apply length_insert|].
  intros i layer0 Hi.
  destruct (decide (i = currentOutfitIndex s)) as [->|Hne].
  - rewrite Hlayer in Hi. injection Hi as <-.
    eexists. split; [apply list_lookup_insert_eq; eapply lookup_lt_Some; eassumption|].
    simpl. split; [reflexivity|]. split; [apply objectKeys_setProp|].
    intros key url' Hget Hurl.
    destruct (decide (key = requestedKey s v)) as [->|Hk].
    + unfold cached in Hcached. rewrite Hget in Hcached. simpl in Hcached.
      apply truthy_false_iff in Hcached. contradiction.
    + now rewrite getProp_setProp_ne.
  - exists layer0. rewrite list_lookup_insert_ne by congruence.
    repeat split; auto.
Qed.

End CacheGrowth.

Lemma adjust_keeps_cache_witness :
  let v := PoseSelect "Side profile view" in
  let s' := after exDressed (OpAdjust v) (Resolved "side.png") in
  run (Resolved "side.png") (adjust exDressed v)
    = Finished s' [generatePoseVariation "shirt-on.png" "Side profile view"]
  /\ length (outfitHistory s') = length (outfitHistory exDressed).
Proof.
  intros v s'.
  assert (Hrun : run (Resolved "side.png") (adjust exDressed v)
                 = Finished s' [generatePoseVariation "shirt-on.png" "Side profile view"])
    by reflexivity.
  exact (conj Hrun (proj1 (adjust_keeps_cache _ _ _ _ _ Hrun))).
Defined.

(** ** The wardrobe *)

Section Wardrobe.
Context `{Imports}.

Lemma find_id_None (garmentInfo : WardrobeItem.t) (items : list WardrobeItem.t) :
  List.find (fun item => WardrobeItem.id item =? WardrobeItem.id garmentInfo) items = None ->
  WardrobeItem.id garmentInfo ∉ wardrobeIds items.
Proof.
  induction items as [|item items IH]; simpl; [intros _; apply not_elem_of_nil|].
  destruct (WardrobeItem.id item =? WardrobeItem.id garmentInfo) eqn:E; [discriminate|].
  intros Hnone. apply not_elem_of_cons. split; [|now apply IH].
  apply String.eqb_neq in E. congruence.
Qed.

Lemma find_id_Some (garmentInfo item : WardrobeItem.t) (items : list WardrobeItem.t) :
  List.find (fun item => WardrobeItem.id item =? WardrobeItem.id garmentInfo) items
    = Some item ->
  WardrobeItem.id garmentInfo ∈ wardrobeIds items.
Proof.
  induction items as [|x items IH]; simpl; [discriminate|].
  destruct (WardrobeItem.id x =? WardrobeItem.id garmentInfo) eqn:E.
  - apply String.eqb_eq in E. rewrite E. intros _. apply list_elem_of_here.
  - intros Hfind. apply list_elem_of_further. now apply IH.
Qed.

Lemma addToWardrobe_NoDup (garmentInfo : WardrobeItem.t) (items : list WardrobeItem.t) :
  NoDup (wardrobeIds items) -> NoDup (wardrobeIds (addToWardrobe garmentInfo items)).
Proof.
  intros Hnd. unfold addToWardrobe.
  destruct (List.find _ items) eqn:Hfind; [exact Hnd|].
  unfold wardrobeIds. rewrite map_app. simpl.
  apply NoDup_app. split; [exact Hnd|]. split.
  - intros x Hx Hin. apply list_elem_of_singleton in Hin. subst x.
    now apply (find_id_None _ _ Hfind).
  - apply NoDup_singleton.
Qed.

(** X16. The wardrobe never lists an id twice: if the ids of the default
    wardrobe are distinct, so are the ids of the wardrobe in every
    reachable state. *)
Theorem reachable_wardrobe_distinct (s : State) :
  NoDup (wardrobeIds defaultWardrobe) ->
  reachable s ->
  NoDup (wardrobeIds (wardrobe s)).
Proof.
  intros Hdefault Hreach.
  induction Hreach as [|s op result s' calls _ IH Hrun]; [exact Hdefault|].
  destruct op as [url | | garmentFile garmentInfo | | v]; simpl in Hrun.
  - injection Hrun as <- _. exact IH.
  - injection Hrun as <- _. exact Hdefault.
  - apply handleGarmentSelect_cases in Hrun
      as [[-> _] | [(_ & _ & _ & -> & _)
         | [(? & ? & _ & _ & _ & _ & _ & ->) | (? & ? & _ & _ & _ & _ & ->)]]];
      try exact IH.
    simpl. now apply addToWardrobe_NoDup.
  - injection Hrun as <- _. unfold handleRemoveLastGarment.
    destruct (0 <? currentOutfitIndex s)%nat; exact IH.
  - apply adjust_cases in Hrun
      as [[-> _] | [(? & _ & _ & _ & -> & _) | [(_ & -> & _)
         | [(? & ? & ? & _ & _ & _ & _ & _ & _ & _ & ->)
           | (? & ? & _ & _ & _ & ->)]]]];
      try exact IH; destruct v; exact IH.
Qed.

(** X17. After a garment has been added successfully the wardrobe lists
    its id, keeps every item it had in the same order, and is unchanged
    when the id was already listed. *)
Theorem selected_garment_joins_wardrobe
    (s s' : State) (garmentFile : File.t) (garmentInfo : WardrobeItem.t)
    (newImageUrl : string) (call : ApiCall) :
  run (Resolved newImageUrl) (handleGarmentSelect s garmentFile garmentInfo)
    = Finished s' [call] ->
  WardrobeItem.id garmentInfo ∈ wardrobeIds (wardrobe s')
  /\ wardrobe s `prefix_of` wardrobe s'
  /\ (WardrobeItem.id garmentInfo ∈ wardrobeIds (wardrobe s) ->
      wardrobe s' = wardrobe s).
Proof.
  intros Hrun.
  apply handleGarmentSelect_cases in Hrun
    as [[_ ?] | [(_ & _ & _ & _ & ?)
       | [(image & url & _ & _ & _ & _ & _ & ->) | (? & ? & _ & _ & ? & _)]]];
    try discriminate.
  simpl. unfold addToWardrobe.
  destruct (List.find _ (wardrobe s)) eqn:Hfind.
  - split; [eapply find_id_Some; eassumption|]. split; [reflexivity | auto].
  - split; [|split].
    + unfold wardrobeIds. rewrite map_app. apply elem_of_app. right.
      apply list_elem_of_here.
    + now apply prefix_app_r.
    + intros Hin. now apply find_id_None in Hfind.
Qed.

End Wardrobe.

Lemma reachable_wardrobe_distinct_witness :
  NoDup (wardrobeIds defaultWardrobe)
  /\ reachable exDressed
  /\ NoDup (wardrobeIds (wardrobe exDressed)).
Proof.
  assert (Hdefault : NoDup (wardrobeIds defaultWardrobe)) by constructor.
  exact (conj Hdefault (conj exDressed_reachable
           (reachable_wardrobe_distinct exDressed Hdefault exDressed_reachable))).
Defined.

Lemma selected_garment_joins_wardrobe_witness :
  run (Resolved "shirt-on.png") (handleGarmentSelect exModel shirtFile shirt)
    = Finished exDressed [generateVirtualTryOnImage "model.png" shirtFile]
  /\ WardrobeItem.id shirt ∈ wardrobeIds (wardrobe exDressed).
Proof.
  assert (Hrun : run (Resolved "shirt-on.png")
                   (handleGarmentSelect exModel shirtFile shirt)
                 = Finished exDressed [generateVirtualTryOnImage "model.png" shirtFile])
    by reflexivity.
  exact (conj Hrun (proj1 (selected_garment_joins_wardrobe _ _ _ _ _ _ Hrun))).
Defined.

(** ** Completions that arrive after Start Over *)

Section LateCompletion.
Context `{Imports}.

(** X18. If Start Over runs while a variation is being generated, the
    completion of that variation finds no layer to update: on success its
    updater throws; on failure it writes the error and the instruction it
    had saved into the fresh state. *)
Theorem variation_resumed_after_startOver
    (s pending st : State) (v : Variation) (call : ApiCall)
    (resume : ApiResult -> State -> option State) :
  adjust s v = Await pending call resume ->
  (forall newImageUrl, resume (Resolved newImageUrl) (handleStartOver st) = None)
  /\ (forall err,
        resume (Rejected err) (handleStartOver st)
          = Some (setCurrent (axisOf v) (current (axisOf v) s)
                    (setError (Some (getFriendlyErrorMessage err (failureContext v)))
                       initialState))).
Proof.
  intros Hstep.
  destruct v; unfold_handlers Hstep; split_guards Hstep; try discriminate;
    injection Hstep as _ _ <-; split; reflexivity.
Qed.

(** X19. If Start Over runs while a garment is being added, the completion
    of the selection appends its layer to the emptied history and
    increments the index: the result is a single garment layer with index
    1 and no model image, a state outside the history invariant. *)
Theorem selection_resumed_after_startOver_escapes
    (s pending st : State) (garmentFile : File.t) (garmentInfo : WardrobeItem.t)
    (call : ApiCall) (resume : ApiResult -> State -> option State)
    (newImageUrl : string) :
  handleGarmentSelect s garmentFile garmentInfo = Await pending call resume ->
  exists s',
    resume (Resolved newImageUrl) (handleStartOver st) = Some s'
    /\ outfitHistory s' = [mkLayer (Some garmentInfo) [(defaultKey, newImageUrl)]]
    /\ currentOutfitIndex s' = 1
    /\ modelImageUrl s' = None
    /\ ~ historyInvariant s'.
Proof.
  intros Hstep. unfold handleGarmentSelect in Hstep.
  split_guards Hstep; try discriminate. injection Hstep as _ _ <-.
  eexists. split; [reflexivity|]. simpl.
  rewrite take_nil. simpl. repeat split.
  intros (_ & Hrange & _). simpl in Hrange.
  specialize (Hrange ltac:(discriminate)). lia.
Qed.

End LateCompletion.

Lemma variation_resumed_after_startOver_witness :
  (exists pending resume,
     adjust exDressed (PoseSelect "Side profile view")
       = Await pending (generatePoseVariation "shirt-on.png" "Side profile view") resume
     /\ resume (Resolved "side.png") (handleStartOver pending) = None).
Proof.
  eexists _, _. split; [reflexivity|].
  exact (proj1 (variation_resumed_after_startOver exDressed _ _
                  (PoseSelect "Side profile view") _ _ eq_refl) "side.png").
Defined.

Lemma selection_resumed_after_startOver_escapes_witness :
  exists pending resume s',
    handleGarmentSelect exModel shirtFile shirt
      = Await pending (generateVirtualTryOnImage "model.png" shirtFile) resume
    /\ resume (Resolved "shirt-on.png") (handleStartOver pending) = Some s'
    /\ currentOutfitIndex s' = 1.
Proof.
  destruct (selection_resumed_after_startOver_escapes exModel _
              (suspended exModel (OpGarmentSelect shirtFile shirt))
              shirtFile shirt _ _ "shirt-on.png" eq_refl)
    as (s' & Hres & _ & Hidx & _).
  eexists _, _, s'. split; [reflexivity|]. split; [exact Hres | exact Hidx].
Defined.

(** ** The active layers and garments *)

Lemma elem_of_List_filter_option (f : option string -> bool)
    (l : list (option string)) (x : option string) :
  x ∈ List.filter f l <-> x ∈ l /\ f x = true.
Proof. rewrite !list_elem_of_In. apply filter_In. Qed.

Lemma elem_of_take_lookup (n : nat) (history : list OutfitLayer) (layer : OutfitLayer) :
  layer ∈ take n history <-> exists i, i < n /\ history !! i = Some layer.
Proof.
  rewrite list_elem_of_lookup. split.
  - intros (i & Hi). apply lookup_take_Some in Hi as [Hi Hlt]. eauto.
  - intros (i & Hlt & Hi). exists i. apply lookup_take_Some. auto.
Qed.

Lemma elem_of_activeGarmentIds (s : State) (garmentId : string) :
  garmentId ∈ activeGarmentIds s <->
  garmentId <> ""
  /\ exists i layer g,
       i <= currentOutfitIndex s
       /\ outfitHistory s !! i = Some layer
       /\ garment layer = Some g
       /\ WardrobeItem.id g = garmentId.
Proof.
  unfold activeGarmentIds, activeOutfitLayers.
  rewrite list_elem_of_omap. split.
  - intros (o & Hin & ->). apply elem_of_List_filter_option in Hin as [Hin Htruthy].
    simpl in Htruthy. apply truthy_true_iff in Htruthy. split; [exact Htruthy|].
    rewrite list_elem_of_In, in_map_iff in Hin. destruct Hin as (layer & Hid & Hin).
    rewrite <- list_elem_of_In in Hin.
    apply elem_of_take_lookup in Hin as (i & Hlt & Hi).
    destruct (garment layer) as [g|] eqn:Hg; [|discriminate].
    injection Hid as Hid. exists i, layer, g. repeat split; try assumption. lia.
  - intros (Hne & i & layer & g & Hle & Hi & Hg & Hid).
    exists (Some garmentId). split; [|reflexivity].
    apply elem_of_List_filter_option. split.
    + rewrite list_elem_of_In, in_map_iff. exists layer. split.
      * rewrite Hg. simpl. now rewrite Hid.
      * rewrite <- list_elem_of_In. apply elem_of_take_lookup. exists i.
        split; [lia | assumption].
    + simpl. now apply truthy_true_iff.
Qed.

Lemma length_garment_ids_le (layers : list OutfitLayer) :
  length (omap (fun garmentId : option string => garmentId)
            (List.filter truthyOpt
               (map (fun layer => option_map WardrobeItem.id (garment layer)) layers)))
  <= length layers.
Proof.
  induction layers as [|layer layers IH]; simpl; [lia|].
  destruct (truthyOpt (option_map WardrobeItem.id (garment layer))) eqn:E; [|lia].
  destruct (option_map WardrobeItem.id (garment layer)); simpl;
    [apply le_n_S | apply Nat.le_le_succ_r]; exact IH.
Qed.

(** X20. [activeGarmentIds] lists exactly the non-empty ids of the garments
    worn up to the current layer: an id is listed if and only if it is
    non-empty and is the id of the garment of a layer at an index not
    above [currentOutfitIndex]. *)
Theorem activeGarmentIds_spec (s : State) (garmentId : string) :
  garmentId ∈ activeGarmentIds s <->
  garmentId <> ""
  /\ exists i layer g,
       i <= currentOutfitIndex s
       /\ outfitHistory s !! i = Some layer
       /\ garment layer = Some g
       /\ WardrobeItem.id g = garmentId.
Proof. apply elem_of_activeGarmentIds. Qed.

Section ActiveLayers.
Context `{Imports}.

(** X21. Take a run of the App in which Start Over, the finalization of a
    model and the removal of the last garment are never invoked while a
    request is pending.  Whenever no request is pending and there is a
    history, the active layers are the first [currentOutfitIndex + 1]
    layers, beginning with the base layer and ending with the current one;
    the active garment ids are at most [currentOutfitIndex] many. *)
Theorem reachable_active_layers (s : State) :
  orderly everyOp s [] ->
  outfitHistory s <> [] ->
  length (activeOutfitLayers s) = currentOutfitIndex s + 1
  /\ (exists base, activeOutfitLayers s !! 0 = Some base /\ garment base = None)
  /\ activeOutfitLayers s !! currentOutfitIndex s
       = outfitHistory s !! currentOutfitIndex s
  /\ length (activeGarmentIds s) <= currentOutfitIndex s.
Proof.
  intros Hrun Hne.
  apply orderly_quiescent, reachableVia_reachable in Hrun.
  apply reachable_inductiveInvariant in Hrun as ((_ & Hrange & Hwf) & _).
  specialize (Hrange Hne). unfold activeGarmentIds, activeOutfitLayers.
  split; [rewrite length_take; lia|].
  destruct (outfitHistory s) as [|base rest] eqn:Hhist; [contradiction|].
  destruct (Hwf 0 base eq_refl) as (_ & Hbase & _).
  replace (currentOutfitIndex s + 1) with (S (currentOutfitIndex s)) by lia.
  split; [exists base; simpl; auto|].
  split; [apply lookup_take_lt; lia|].
  simpl. rewrite (Hbase eq_refl). simpl.
  etransitivity; [apply length_garment_ids_le|].
  rewrite length_take. lia.
Qed.

(** X22. In a reachable state, a garment with a non-empty id that has
    been added successfully is among the active garment ids. *)
Theorem selected_garment_is_active
    (s s' : State) (garmentFile : File.t) (garmentInfo : WardrobeItem.t)
    (newImageUrl : string) (call : ApiCall) :
  reachable s ->
  run (Resolved newImageUrl) (handleGarmentSelect s garmentFile garmentInfo)
    = Finished s' [call] ->
  WardrobeItem.id garmentInfo <> "" ->
  WardrobeItem.id garmentInfo ∈ activeGarmentIds s'.
Proof.
  intros Hreach Hrun Hid.
  pose proof (reachable_inductiveInvariant s Hreach) as Hinv.
  apply handleGarmentSelect_cases in Hrun
    as [[_ ?] | [(_ & _ & _ & _ & ?)
       | [(image & url & Hd & _ & _ & _ & _ & ->) | (? & ? & _ & _ & ? & _)]]];
    try discriminate.
  pose proof (displayImageUrl_needs_history _ _ Hinv Hd) as Hnn.
  destruct Hinv as ((_ & Hrange & _) & _). specialize (Hrange Hnn).
  apply elem_of_activeGarmentIds. split; [exact Hid|].
  exists (currentOutfitIndex s + 1), (mkLayer (Some garmentInfo) [(defaultKey, url)]),
    garmentInfo.
  simpl. repeat split; try lia.
  rewrite lookup_app_r by (rewrite length_take; lia).
  rewrite length_take.
  replace (currentOutfitIndex s + 1 - (currentOutfitIndex s + 1) `min` length (outfitHistory s))
    with 0 by lia.
  reflexivity.
Qed.

End ActiveLayers.

Lemma reachable_active_layers_witness :
  orderly everyOp exDressed []
  /\ outfitHistory exDressed <> []
  /\ length (activeOutfitLayers exDressed) = currentOutfitIndex exDressed + 1.
Proof.
  pose (Hrun := exDressed_orderly everyOp eq_refl eq_refl).
  assert (Hne : outfitHistory exDressed <> []) by discriminate.
  exact (conj Hrun (conj Hne
           (proj1 (reachable_active_layers exDressed Hrun Hne)))).
Defined.

Lemma selected_garment_is_active_witness :
  reachable exModel
  /\ run (Resolved "shirt-on.png") (handleGarmentSelect exModel shirtFile shirt)
       = Finished exDressed [generateVirtualTryOnImage "model.png" shirtFile]
  /\ WardrobeItem.id shirt <> ""
  /\ WardrobeItem.id shirt ∈ activeGarmentIds exDressed.
Proof.
  assert (Hreach : reachable exModel).
  { eapply reachable_step with (s := initialState)
      (op := OpModelFinalized "model.png") (result := Resolved "");
      [apply reachable_init | reflexivity]. }
  assert (Hrun : run (Resolved "shirt-on.png")
                   (handleGarmentSelect exModel shirtFile shirt)
                 = Finished exDressed [generateVirtualTryOnImage "model.png" shirtFile])
    by reflexivity.
  assert (Hid : WardrobeItem.id shirt <> "") by discriminate.
  exact (conj Hreach (conj Hrun (conj Hid
           (selected_garment_is_active _ _ _ _ _ _ Hreach Hrun Hid)))).
Defined.

(** ** Start Over and the origin of the displayed image *)

Section StartOver.
Context `{Imports}.

(** Start Over returns the very state the App starts in, whatever the
    state it is called in: all twelve state variables, including the
    loading flag, the error and the wardrobe, get their initial values. *)
Remark handleStartOver_initial (s : State) : handleStartOver s = initialState.
Proof. reflexivity. Qed.

End StartOver.

Lemma getProp_elem_of_objectValues (images : JsObject) (key url : string) :
  getProp images key = Some url -> url ∈ objectValues images.
Proof.
  induction images as [|[k v] images IH]; simpl; [discriminate|].
  destruct (k =? key).
  - intros Hv. injection Hv as ->. apply list_elem_of_here.
  - intros Hget. apply list_elem_of_further. now apply IH.
Qed.

(** X23. Whenever a current layer exists and the composite key of the
    current instructions names no inherited property, a displayed image is
    the URL of one of the entries of that layer's map. *)
Theorem displayImageUrl_from_current_layer
    (s : State) (layer : OutfitLayer) (url : string) :
  outfitHistory s !! currentOutfitIndex s = Some layer ->
  inheritedProperty (primaryKey s) = false ->
  displayImageUrl s = Some url ->
  url ∈ objectValues (generatedImages layer).
Proof.
  intros Hlayer _. unfold displayImageUrl, resolveImage.
  rewrite (lookup_Some_length_nonzero _ _ Hlayer), Hlayer.
  destruct (truthyOpt (getProp (generatedImages layer) (primaryKey s)));
    [apply getProp_elem_of_objectValues|].
  destruct (fallbackKey (poseEmotionBgPrefix s) (generatedImages layer));
    [apply getProp_elem_of_objectValues|].
  destruct (fallbackKey (poseEmotionPrefix s) (generatedImages layer));
    [apply getProp_elem_of_objectValues|].
  destruct (fallbackKey (posePrefix s) (generatedImages layer));
    [apply getProp_elem_of_objectValues|].
  destruct (objectValues (generatedImages layer)) as [|v values]; simpl;
    [discriminate|].
  intros Hv. injection Hv as ->. apply list_elem_of_here.
Qed.

Lemma displayImageUrl_from_current_layer_witness :
  outfitHistory exPendingPose !! currentOutfitIndex exPendingPose
    = Some (mkLayer None
              [(defaultKey, "model.png");
               (compositeKey "Side_view" "Neutral" "Neutral studio backdrop" "Original",
                "side_view.png")])
  /\ inheritedProperty (primaryKey exPendingPose) = false
  /\ displayImageUrl exPendingPose = Some "side_view.png"
  /\ "side_view.png" ∈ ["model.png"; "side_view.png"].
Proof.
  refine (conj eq_refl (conj eq_refl (conj eq_refl _))).
  exact (displayImageUrl_from_current_layer exPendingPose _ "side_view.png"
           eq_refl eq_refl eq_refl).
Defined.
